(** * syncACLentries: the ACL reconciliation script, embedded and verified

    A shallow embedding of [syncACLentries.py].  The script gathers the
    entries of one named ACL from several Fastly services into a single
    dictionary ([getACLentries]) and then pushes that dictionary to every
    service as a batch of create / update operations ([updateACLentries]).

    Modelling choices.
    - JSON field values are Python objects; the scalar ones that the entry
      schema can carry ([None], booleans, integers, strings) are the type
      [pyval], with Python's truthiness and Python's [==] written out
      (floats and nested containers are left out).
    - A Python [dict] keeps insertion order and the planner iterates over
      it, so it is an association list with unique keys: assigning to a new
      key appends, assigning to an old key replaces in place.
    - Output, HTTP traffic and [sys.exit] are effects: a computation maps
      the trace of events so far to an outcome and a longer trace. *)

From Stdlib Require Import ZArith String List Bool Lia.
From Stdlib Require Import DecimalString.
Import ListNotations.
Local Open Scope string_scope.
Local Open Scope Z_scope.

(** ** Python values *)

Inductive pyval : Type :=
| PNone
| PBool (b : bool)
| PInt (z : Z)
| PStr (s : string).

(** [bool(v)]: what [if v] and [not v] test. *)
Definition truthy (v : pyval) : bool :=
  match v with
  | PNone => false
  | PBool b => b
  | PInt z => negb (z =? 0)
  | PStr s => negb (String.eqb s "")
  end.

(** [a == b].  [bool] is a subclass of [int], so [True == 1]; values of
    unrelated types are unequal. *)
Definition py_eq (a b : pyval) : bool :=
  match a, b with
  | PNone, PNone => true
  | PBool x, PBool y => Bool.eqb x y
  | PBool x, PInt z => Z.b2z x =? z
  | PInt z, PBool y => z =? Z.b2z y
  | PInt x, PInt y => x =? y
  | PStr s, PStr t => String.eqb s t
  | _, _ => false
  end.

(** [a != b]. *)
Definition py_ne (a b : pyval) : bool := negb (py_eq a b).

(** [str(v)], as an f-string renders a value. *)
Definition py_str (v : pyval) : string :=
  match v with
  | PNone => "None"
  | PBool true => "True"
  | PBool false => "False"
  | PInt z => NilZero.string_of_int (Z.to_int z)
  | PStr s => s
  end.

(** ** Dictionaries keyed by strings, in insertion order *)

Section Dict.
Context {V : Type}.

Definition dict := list (string * V).

(** [d[k]], and [k in d] as [lookup k d <> None]. *)
Fixpoint lookup (k : string) (d : dict) : option V :=
  match d with
  | [] => None
  | (k', v) :: rest => if String.eqb k k' then Some v else lookup k rest
  end.

Definition mem (k : string) (d : dict) : bool :=
  match lookup k d with Some _ => true | None => false end.

(** [d[k] = v]. *)
Fixpoint assign (k : string) (v : V) (d : dict) : dict :=
  match d with
  | [] => [(k, v)]
  | (k', v') :: rest =>
      if String.eqb k k' then (k', v) :: rest else (k', v') :: assign k v rest
  end.

Definition keys (d : dict) : list string := map fst d.
End Dict.
Arguments dict : clear implicits.

(** ** Entries *)

(** One element of the JSON array the entries endpoint returns. *)
Record raw_acl : Type := mkRaw {
  raw_ip : string;
  raw_subnet : pyval;
  raw_comment : pyval;
  raw_id : pyval
}.

(** A value of the consolidated dictionary:
    [{"subnet": ..., "comment": ...}]. *)
Record centry : Type := mkC {
  c_subnet : pyval;
  c_comment : pyval
}.

(** A value of [existingACLEntries]:
    [{"id": ..., "subnet": ..., "comment": ...}]. *)
Record live_entry : Type := mkLive {
  l_id : pyval;
  l_subnet : pyval;
  l_comment : pyval
}.

(** An element of [payload]: [{"op": "create", ...}] or
    [{"op": "update", ..., "id": ...}]. *)
Inductive operation : Type :=
| Create (ip : string) (subnet comment : pyval)
| Update (ip : string) (subnet comment : pyval) (id : pyval).

Definition op_ip (o : operation) : string :=
  match o with
  | Create ip _ _ => ip
  | Update ip _ _ _ => ip
  end.

(** ** getACLentries, the loop body (lines 56-79) *)

Definition sentinel : pyval := PStr "None".

(** Lines 58-62: the two in-place defaults. *)
Definition normalize (acl : raw_acl) : raw_acl :=
  let acl1 :=
    if negb (truthy (raw_subnet acl))
    then mkRaw (raw_ip acl) (PInt 32) (raw_comment acl) (raw_id acl)
    else acl in
  if negb (truthy (raw_comment acl1))
  then mkRaw (raw_ip acl1) (raw_subnet acl1) sentinel (raw_id acl1)
  else acl1.

(** [aclENTRIES[ip]["subnet"] = v] and the same for ["comment"]: the inner
    dictionary is changed where it sits. *)
Definition set_subnet (ip : string) (v : pyval) (d : dict centry) : dict centry :=
  match lookup ip d with
  | Some e => assign ip (mkC v (c_comment e)) d
  | None => d
  end.

Definition set_comment (ip : string) (v : pyval) (d : dict centry) : dict centry :=
  match lookup ip d with
  | Some e => assign ip (mkC (c_subnet e) v) d
  | None => d
  end.

Definition subnet_at (ip : string) (d : dict centry) : option pyval :=
  option_map c_subnet (lookup ip d).

Definition comment_at (ip : string) (d : dict centry) : option pyval :=
  option_map c_comment (lookup ip d).

Definition is_eq (o : option pyval) (v : pyval) : bool :=
  match o with Some w => py_eq w v | None => false end.

(** One iteration of [for acl in r.json()]. *)
Definition merge_one (aclENTRIES : dict centry) (acl : raw_acl) : dict centry :=
  let acl := normalize acl in
  let aclIP := raw_ip acl in
  let aclSUBNET := raw_subnet acl in
  let aclCOMMENT := raw_comment acl in
  if mem aclIP aclENTRIES then
    if is_eq (subnet_at aclIP aclENTRIES) aclSUBNET
       && is_eq (comment_at aclIP aclENTRIES) aclCOMMENT
    then aclENTRIES
    else
      let d1 :=
        if is_eq (subnet_at aclIP aclENTRIES) sentinel && py_ne aclSUBNET sentinel
        then set_subnet aclIP aclSUBNET aclENTRIES
        else aclENTRIES in
      if is_eq (comment_at aclIP d1) sentinel && py_ne aclCOMMENT sentinel
      then set_comment aclIP aclCOMMENT d1
      else d1
  else assign aclIP (mkC aclSUBNET aclCOMMENT) aclENTRIES.

(** The whole loop over one response body. *)
Definition merge_all (aclENTRIES : dict centry) (body : list raw_acl) : dict centry :=
  fold_left merge_one body aclENTRIES.

(** ** updateACLentries, the pure part (lines 95-120) *)

(** Lines 95-101. *)
Definition build_existing (body : list raw_acl) : dict live_entry :=
  fold_left
    (fun existing acl =>
       assign (raw_ip acl)
              (mkLive (raw_id acl) (raw_subnet acl) (raw_comment acl)) existing)
    body [].

(** One iteration of [for IP in aclENTRIES], lines 105-120: the loop goes
    through the keys in insertion order and reads [aclENTRIES[IP]], that is,
    it goes through the items; [payload.append] adds at the end. *)
Definition plan_step (existingACLEntries : dict live_entry)
    (payload : list operation) (item : string * centry) : list operation :=
  let IP := fst item in
  let e := snd item in
  match lookup IP existingACLEntries with
  | Some l =>
      if py_eq (c_subnet e) (l_subnet l) && py_eq (c_comment e) (l_comment l)
      then payload
      else payload ++ [Update IP (c_subnet e) (c_comment e) (l_id l)]
  | None => payload ++ [Create IP (c_subnet e) (c_comment e)]
  end.

(** Lines 103-120. *)
Definition plan (aclENTRIES : dict centry) (existingACLEntries : dict live_entry)
    : list operation :=
  fold_left (plan_step existingACLEntries) aclENTRIES [].

(** ** Effects: printing, HTTP, exiting *)

Inductive method : Type := GET | PATCH.

Record request : Type := mkReq {
  rq_method : method;
  rq_url : string;
  rq_headers : list (string * string);
  rq_data : option (list operation)     (* [data={"entries": payload}] *)
}.

Record version : Type := mkVersion {
  v_active : pyval;
  v_number : pyval
}.

(** What [r.json()] gives, by endpoint: the array of versions, the ACL
    object (of which only ["id"] is read), the array of entries.  A body of
    any other shape is [BOther]; reading it makes Python raise. *)
Inductive body : Type :=
| BVersions (vs : list version)
| BAcl (id : pyval)
| BEntries (es : list raw_acl)
| BOther.

Record response : Type := mkResp {
  status_code : Z;
  text : string;
  json : body
}.

Inductive event : Type :=
| EPrint (line : string)
| EPrintOp (o : operation)              (* [print(i)] of a payload element *)
| ERequest (rq : request) (rs : response).

Inductive outcome (A : Type) : Type :=
| Ret (a : A)
| Exit (code : Z)                       (* [sys.exit(code)] *)
| Raise (exn : string).                 (* any other exception *)
Arguments Ret {A} a.
Arguments Exit {A} code.
Arguments Raise {A} exn.

Definition M (A : Type) : Type := list event -> outcome A * list event.

Definition ret {A} (a : A) : M A := fun t => (Ret a, t).

Definition bind {A B} (m : M A) (f : A -> M B) : M B :=
  fun t =>
    match m t with
    | (Ret a, t') => f a t'
    | (Exit c, t') => (Exit c, t')
    | (Raise e, t') => (Raise e, t')
    end.

Declare Scope py_scope.
Delimit Scope py_scope with py.
Notation "x <- m ;; k" := (bind m (fun x => k))
  (at level 61, m at next level, right associativity) : py_scope.
Notation "m ;; k" := (bind m (fun _ => k))
  (at level 61, right associativity) : py_scope.
Local Open Scope py_scope.

Definition print (line : string) : M unit := fun t => (Ret tt, (t ++ [EPrint line])%list).
Definition print_op (o : operation) : M unit := fun t => (Ret tt, (t ++ [EPrintOp o])%list).
Definition sys_exit {A} (code : Z) : M A := fun t => (Exit code, t).
Definition raise {A} (exn : string) : M A := fun t => (Raise exn, t).
Definition when (b : bool) (m : M unit) : M unit := if b then m else ret tt.

Fixpoint for_each {A} (l : list A) (f : A -> M unit) : M unit :=
  match l with
  | [] => ret tt
  | x :: rest => f x ;; for_each rest f
  end.

(** The character [\n]. *)
Definition newline : string := String (Ascii.ascii_of_nat 10) "".

Definition str_of_nat (n : nat) : string := NilZero.string_of_uint (Nat.to_uint n).

Section Script.
(** The service on the other end: the response to a request, which may
    depend on everything that happened before. *)
Variable net : list event -> request -> response.
(** [os.environ["FASTLY_API_TOKEN"]] and the global [debug]. *)
Variable token : string.
Variable debug : pyval.

Definition FASTLY_API_HEADERS : list (string * string) := [("Fastly-Key", token)].

Definition http (rq : request) : M response :=
  fun t => let rs := net t rq in (Ret rs, (t ++ [ERequest rq rs])%list).

Definition requests_get (url : string) : M response :=
  http (mkReq GET url FASTLY_API_HEADERS None).

Definition requests_patch (url : string) (headers : list (string * string))
    (entries : list operation) : M response :=
  http (mkReq PATCH url headers (Some entries)).

(** Lines 22-26. *)
Definition check_r (r : response) (errormsg : string) : M unit :=
  if negb (status_code r =? 200) then
    print errormsg ;;
    print (text r) ;;
    sys_exit 1
  else ret tt.

(** Lines 28-35. *)
Definition getSVCver (svcID : string) : M pyval :=
  r <- requests_get ("https://api.fastly.com/service/" ++ svcID ++ "/version") ;;
  check_r r ("Getting the svc versions of service " ++ svcID ++ " failed. Exiting...") ;;
  match json r with
  | BVersions vs =>
      match find (fun v => truthy (v_active v)) vs with
      | Some v => ret (v_number v)
      | None =>
          print ("Couldn't find active service version number for service "
                   ++ svcID ++ ". Exiting...") ;;
          sys_exit 1
      end
  | _ => raise "TypeError"
  end.

(** Lines 37-40. *)
Definition getACLidFromName (svcID : string) (svcVER : pyval) (aclNAME : string)
    : M pyval :=
  r <- requests_get ("https://api.fastly.com/service/" ++ svcID ++ "/version/"
                       ++ py_str svcVER ++ "/acl/" ++ aclNAME) ;;
  check_r r ("Getting ACL ID for " ++ aclNAME ++ " from service " ++ svcID
               ++ " version " ++ py_str svcVER ++ " failed. Exiting...") ;;
  match json r with
  | BAcl id => ret id
  | _ => raise "TypeError"
  end.

Definition entries_url (svcID : string) (aclID : pyval) : string :=
  "https://api.fastly.com/service/" ++ svcID ++ "/acl/" ++ py_str aclID
    ++ "/entries?direction=ascend&page=1&per_page=1000&sort=created".

(** Lines 44-54 and 83-93, which the two functions share word for word:
    the active version, the ACL id, the entries. *)
Definition fetch_entries (svcID : string) (svcVER : pyval) (aclNAME : string)
    : M (pyval * pyval * list raw_acl) :=
  svcVER <- (if negb (truthy svcVER) then getSVCver svcID else ret svcVER) ;;
  aclID <- getACLidFromName svcID svcVER aclNAME ;;
  r <- requests_get (entries_url svcID aclID) ;;
  check_r r ("Getting ACL entries for ACL " ++ aclNAME ++ " from service "
               ++ svcID ++ " failed. Exiting...") ;;
  match json r with
  | BEntries es => ret (svcVER, aclID, es)
  | _ => raise "TypeError"
  end.

(** Lines 42-79.  The dictionary is changed in place; the changed
    dictionary is the result. *)
Definition getACLentries (svcID : string) (svcVER : pyval) (aclNAME : string)
    (aclENTRIES : dict centry) : M (dict centry) :=
  fetched <- fetch_entries svcID svcVER aclNAME ;;
  let '(_, _, es) := fetched in
  ret (merge_all aclENTRIES es).

(** Lines 122-140. *)
Definition apply_payload (svcID : string) (svcVER aclID : pyval) (aclNAME : string)
    (payload : list operation) : M unit :=
  when (truthy debug)
       (print ("Creating/updating " ++ str_of_nat (length payload)
                 ++ " ACLs in svc " ++ svcID ++ ":" ++ py_str svcVER ++ ":"
                 ++ aclNAME ++ "...")) ;;
  if (length payload =? 0)%nat then ret tt
  else
    when (truthy debug)
         (print "Payload to be applied:" ;; for_each payload print_op) ;;
    let patchheaders :=
      (FASTLY_API_HEADERS ++ [("Content-type", "application/json")])%list in
    r <- requests_patch ("https://api.fastly.com/service/" ++ svcID ++ "/acl/"
                           ++ py_str aclID ++ "/entries")
                        patchheaders payload ;;
    check_r r ("Updating ACL entries for ACL " ++ aclNAME ++ " from service "
                 ++ svcID ++ " failed. Exiting...") ;;
    print ("Result of PATCH API call: " ++ text r).

(** Lines 81-140. *)
Definition updateACLentries (svcID : string) (svcVER : pyval) (aclNAME : string)
    (aclENTRIES : dict centry) : M unit :=
  fetched <- fetch_entries svcID svcVER aclNAME ;;
  let '(svcVER, aclID, es) := fetched in
  let existingACLEntries := build_existing es in
  let payload := plan aclENTRIES existingACLEntries in
  apply_payload svcID svcVER aclID aclNAME payload.
End Script.

(** ** The entry point (lines 144-167) *)

Record arguments : Type := mkArgs {
  svcid : list string;                  (* [nargs='+'] *)
  aclname : string;
  verbose : pyval
}.

(** The two loops only announce their work: the calls to [getACLentries]
    and [updateACLentries] in their bodies are commented out. *)
Definition main (args : arguments) : M unit :=
  let entries : dict centry := [] in
  for_each (svcid args)
    (fun svc => print ("Getting '" ++ aclname args ++ "' ACL entries from service '"
                         ++ svc ++ "'...")) ;;
  for_each (svcid args)
    (fun svc => print ("Updating '" ++ aclname args ++ "' ACL entries for service '"
                         ++ svc ++ "'...")) ;;
  print (newline ++ "Done." ++ newline) ;;
  sys_exit 0.

(** ** Start-up (lines 12-17) *)

(** [os.environ] is a dictionary of strings; reading a missing key raises
    [KeyError], which the script catches to print and exit.  On success the
    two globals are set: the headers and [debug = False]. *)
Definition startup (environ : dict string) : M (list (string * string) * pyval) :=
  match lookup "FASTLY_API_TOKEN" environ with
  | Some tok => ret ([("Fastly-Key", tok)], PBool false)
  | None =>
      print "Missing FASTLY_API_TOKEN environment variable. Exiting..." ;;
      sys_exit 1
  end.

(** The module run as a script, on parsed arguments: the start-up, then
    the entry point. *)
Definition script (environ : dict string) (args : arguments) : M unit :=
  startup environ ;;
  main args.

(** * Vocabulary of the statements *)

(** What one merge step does to the record already held for the entry's
    address, given the entry's normalized subnet and comment. *)
Definition merge_entry (e : centry) (s c : pyval) : centry :=
  if py_eq (c_subnet e) s && py_eq (c_comment e) c then e
  else mkC (if py_eq (c_subnet e) sentinel && py_ne s sentinel then s else c_subnet e)
           (if py_eq (c_comment e) sentinel && py_ne c sentinel then c else c_comment e).

(** The first value of a list that is not the sentinel, the sentinel when
    there is none. *)
Definition first_real (vs : list pyval) : pyval :=
  match find (fun v => py_ne v sentinel) vs with
  | Some v => v
  | None => sentinel
  end.

(** The entries of a response body that are about one address. *)
Definition about (ip : string) (body : list raw_acl) : list raw_acl :=
  filter (fun a => String.eqb ip (raw_ip a)) body.

(** The subnet and the comment an entry contributes to the merge. *)
Definition merged_subnet (a : raw_acl) : pyval := raw_subnet (normalize a).
Definition merged_comment (a : raw_acl) : pyval := raw_comment (normalize a).

(** The planner as the design describes it, one consolidated item at a
    time: a create when the address is not live, nothing when the live
    subnet and comment equal the consolidated ones, an update with the live
    id otherwise. *)
Definition planned_for (live : dict live_entry) (item : string * centry)
    : list operation :=
  let '(ip, e) := item in
  match lookup ip live with
  | None => [Create ip (c_subnet e) (c_comment e)]
  | Some l =>
      if py_eq (c_subnet e) (l_subnet l) && py_eq (c_comment e) (l_comment l)
      then []
      else [Update ip (c_subnet e) (c_comment e) (l_id l)]
  end.

(** The requests of a trace, in order, and the writes among them. *)
Definition requests_of (t : list event) : list request :=
  flat_map (fun ev => match ev with ERequest rq _ => [rq] | _ => [] end) t.

Definition is_patch (rq : request) : bool :=
  match rq_method rq with PATCH => true | GET => false end.

Definition patches (t : list event) : list request := filter is_patch (requests_of t).

(** The write [updateACLentries] sends for a payload. *)
Definition patch_request (token svcID : string) (aclID : pyval)
    (payload : list operation) : request :=
  mkReq PATCH
        ("https://api.fastly.com/service/" ++ svcID ++ "/acl/" ++ py_str aclID ++ "/entries")
        [("Fastly-Key", token); ("Content-type", "application/json")]
        (Some payload).

(** A computation only adds to the trace, and what it adds satisfies [P]. *)
Definition extends {A} (P : list event -> Prop) (m : M A) : Prop :=
  forall t, exists new, snd (m t) = (t ++ new)%list /\ P new.

Definition exit_code {A} (o : outcome A) : option Z :=
  match o with Exit c => Some c | _ => None end.

(** Reading the added events from the first on: a response whose status is
    not 200 is followed by two printed lines, the second being the body of
    that response, and nothing else, and the run has exited with code 1. *)
Fixpoint fail_fast (code : option Z) (new : list event) : Prop :=
  match new with
  | [] => True
  | ERequest rq rs :: rest =>
      if status_code rs =? 200 then fail_fast code rest
      else code = Some 1 /\ exists msg, rest = [EPrint msg; EPrint (text rs)]
  | _ :: rest => fail_fast code rest
  end.

Definition obeys {A} (m : M A) : Prop :=
  forall t, exists new,
    snd (m t) = (t ++ new)%list /\ fail_fast (exit_code (fst (m t))) new.

(** The same, said without recursion: wherever a response whose status is
    not 200 sits among the added events, the outcome is [sys.exit(1)] and
    what follows that response is an error message and the response body. *)
Definition aborts_on_failure {A} (m : M A) : Prop :=
  forall t, exists new,
    snd (m t) = (t ++ new)%list
    /\ forall pre rq rs post,
        new = (pre ++ ERequest rq rs :: post)%list ->
        status_code rs <> 200 ->
        fst (m t) = Exit 1 /\ exists msg, post = [EPrint msg; EPrint (text rs)].

(** A small world to run the script in.  Service A has one entry, with a
    null subnet and a null comment; service B has the same address with
    subnet 24 and comment "vpn"; both have version 2 active and an ACL
    named "office".  Anything else is a 404. *)
Definition demo_net (t : list event) (rq : request) : response :=
  let url := rq_url rq in
  let versions :=
    mkResp 200 "[versions]"
           (BVersions [mkVersion (PBool false) (PInt 1); mkVersion (PBool true) (PInt 2)]) in
  match rq_method rq with
  | PATCH => mkResp 200 "{status: ok}" BOther
  | GET =>
      if String.eqb url "https://api.fastly.com/service/A/version" then versions
      else if String.eqb url "https://api.fastly.com/service/B/version" then versions
      else if String.eqb url "https://api.fastly.com/service/A/version/2/acl/office"
      then mkResp 200 "{acl}" (BAcl (PStr "aclA"))
      else if String.eqb url "https://api.fastly.com/service/B/version/2/acl/office"
      then mkResp 200 "{acl}" (BAcl (PStr "aclB"))
      else if String.eqb url (entries_url "A" (PStr "aclA"))
      then mkResp 200 "[entries]" (BEntries [mkRaw "10.0.0.1" PNone PNone (PStr "a1")])
      else if String.eqb url (entries_url "B" (PStr "aclB"))
      then mkResp 200 "[entries]"
                  (BEntries [mkRaw "10.0.0.1" (PInt 24) (PStr "vpn") (PStr "b1")])
      else mkResp 404 "Record not found" BOther
  end.

(** The item a fresh address enters the consolidated dictionary with. *)
Definition to_item (a : raw_acl) : string * centry :=
  (raw_ip a, mkC (merged_subnet a) (merged_comment a)).

(** The value [existingACLEntries] holds for an entry. *)
Definition to_live (a : raw_acl) : live_entry :=
  mkLive (raw_id a) (raw_subnet a) (raw_comment a).

(** Neither field of a record is falsy. *)
Definition complete (e : centry) : bool := truthy (c_subnet e) && truthy (c_comment e).

Definition op_complete (o : operation) : bool :=
  match o with
  | Create _ s c => truthy s && truthy c
  | Update _ s c _ => truthy s && truthy c
  end.

(** A consolidated item needs nothing: its address is live with an equal
    subnet and an equal comment. *)
Definition converged (live : dict live_entry) (item : string * centry) : bool :=
  match lookup (fst item) live with
  | Some l => py_eq (c_subnet (snd item)) (l_subnet l)
              && py_eq (c_comment (snd item)) (l_comment l)
  | None => false
  end.

(** What a computation adds holds at most [n] requests, each of them [ok]. *)
Definition phase (ok : request -> Prop) (n : nat) (new : list event) : Prop :=
  Forall ok (requests_of new) /\ (length (requests_of new) <= n)%nat.

(** A read: a GET with the API key as its only header and no body. *)
Definition is_read (token : string) (rq : request) : Prop :=
  rq_method rq = GET
  /\ rq_headers rq = [("Fastly-Key", token)]
  /\ rq_data rq = None.

(** A write: a PATCH with the API key, the JSON content type and a body. *)
Definition is_write (token : string) (rq : request) : Prop :=
  rq_method rq = PATCH
  /\ rq_headers rq = [("Fastly-Key", token); ("Content-type", "application/json")]
  /\ rq_data rq <> None.

(** The request [getSVCver] sends. *)
Definition version_request (token svcID : string) : request :=
  mkReq GET ("https://api.fastly.com/service/" ++ svcID ++ "/version")
        [("Fastly-Key", token)] None.



(** * Properties *)

(** ** Python equality against the sentinel *)

Lemma py_eq_sentinel (v : pyval) : py_eq v sentinel = true <-> v = sentinel.
Proof.
  unfold sentinel, py_eq; destruct v; split; intro H; try discriminate; auto.
  - apply String.eqb_eq in H; now subst.
  - injection H as ->; apply String.eqb_refl.
Qed.

Lemma sentinel_py_eq (v : pyval) : py_eq sentinel v = true <-> v = sentinel.
Proof.
  unfold sentinel, py_eq; destruct v; split; intro H; try discriminate; auto.
  - apply String.eqb_eq in H; now subst.
  - injection H as ->; apply String.eqb_refl.
Qed.

Lemma py_eq_sentinel_false (v : pyval) : py_eq v sentinel = false <-> v <> sentinel.
Proof.
  rewrite <- py_eq_sentinel; destruct (py_eq v sentinel); split; congruence.
Qed.

Lemma truthy_false_iff (v : pyval) :
  truthy v = false <-> v = PNone \/ v = PBool false \/ v = PInt 0 \/ v = PStr "".
Proof.
  destruct v as [|b|z|s]; unfold truthy; split; intro H.
  - now left.
  - reflexivity.
  - subst; right; now left.
  - destruct H as [H|[H|[H|H]]]; try discriminate; now injection H.
  - apply negb_false_iff, Z.eqb_eq in H; subst; right; right; now left.
  - destruct H as [H|[H|[H|H]]]; try discriminate; now injection H as ->.
  - apply negb_false_iff, String.eqb_eq in H; subst; right; right; now right.
  - destruct H as [H|[H|[H|H]]]; try discriminate; injection H as ->; reflexivity.
Qed.

(** ** Dictionary laws *)

Section DictFacts.
Context {V : Type}.
Implicit Types (d : dict V) (k : string) (v : V).

Lemma lookup_assign_same k v d : lookup k (assign k v d) = Some v.
Proof.
  induction d as [|[k' v'] d IH]; simpl.
  - now rewrite String.eqb_refl.
  - destruct (String.eqb k k') eqn:E; simpl; rewrite E; auto.
Qed.

Lemma lookup_assign_other k k' v d :
  k <> k' -> lookup k' (assign k v d) = lookup k' d.
Proof.
  intro N; induction d as [|[k0 v0] d IH]; simpl.
  - apply String.eqb_neq in N. now rewrite String.eqb_sym, N.
  - destruct (String.eqb k k0) eqn:E; simpl.
    + apply String.eqb_eq in E; subst k0.
      destruct (String.eqb k' k) eqn:E'; auto.
      apply String.eqb_eq in E'; congruence.
    + now rewrite IH.
Qed.

Lemma lookup_assign k k' v d :
  lookup k' (assign k v d) = if String.eqb k' k then Some v else lookup k' d.
Proof.
  destruct (String.eqb k' k) eqn:E.
  - apply String.eqb_eq in E; subst; apply lookup_assign_same.
  - apply lookup_assign_other. apply String.eqb_neq in E; congruence.
Qed.

Lemma lookup_None_keys k d : lookup k d = None <-> ~ In k (keys d).
Proof.
  induction d as [|[k' v'] d IH]; simpl.
  - tauto.
  - destruct (String.eqb k k') eqn:E.
    + apply String.eqb_eq in E; subst; split; [discriminate | tauto].
    + apply String.eqb_neq in E; rewrite IH; split; [intros H [?|?] | ]; auto; congruence.
Qed.

Lemma lookup_Some_In k v d : lookup k d = Some v -> In (k, v) d.
Proof.
  induction d as [|[k' v'] d IH]; simpl; [discriminate|].
  destruct (String.eqb k k') eqn:E.
  - apply String.eqb_eq in E; subst; intros [= ->]; now left.
  - auto.
Qed.

Lemma In_lookup_Some k v d : NoDup (keys d) -> In (k, v) d -> lookup k d = Some v.
Proof.
  induction d as [|[k' v'] d IH]; simpl; [tauto|].
  intros ND [H|H]; inversion ND; subst.
  - injection H as -> ->; now rewrite String.eqb_refl.
  - destruct (String.eqb k k') eqn:E; auto.
    apply String.eqb_eq in E; subst k'.
    exfalso; apply H2. unfold keys; change k with (fst (k, v)); now apply in_map.
Qed.

Lemma keys_assign k v d :
  keys (assign k v d) = if mem k d then keys d else (keys d ++ [k])%list.
Proof.
  unfold mem; induction d as [|[k' v'] d IH]; simpl; auto.
  destruct (String.eqb k k') eqn:E; simpl; auto.
  rewrite IH; destruct (lookup k d); reflexivity.
Qed.

Lemma assign_NoDup k v d : NoDup (keys d) -> NoDup (keys (assign k v d)).
Proof.
  intro ND; rewrite keys_assign; unfold mem.
  destruct (lookup k d) eqn:E; auto.
  apply lookup_None_keys in E.
  apply NoDup_app; auto.
  - constructor; [simpl; tauto | constructor].
  - intros x Hx [<-|[]]; tauto.
Qed.
End DictFacts.

(** ** The merger *)

Lemma normalize_ip (a : raw_acl) : raw_ip (normalize a) = raw_ip a.
Proof.
  unfold normalize.
  destruct (negb (truthy (raw_subnet a))); cbn [raw_comment raw_ip];
    destruct (negb (truthy (raw_comment a))); reflexivity.
Qed.

Lemma normalize_subnet (a : raw_acl) :
  raw_subnet (normalize a) = if truthy (raw_subnet a) then raw_subnet a else PInt 32.
Proof.
  unfold normalize.
  destruct (truthy (raw_subnet a)); cbn [negb raw_comment raw_subnet];
    destruct (negb (truthy (raw_comment a))); reflexivity.
Qed.

Lemma normalize_comment (a : raw_acl) :
  raw_comment (normalize a) = if truthy (raw_comment a) then raw_comment a else sentinel.
Proof.
  unfold normalize.
  destruct (truthy (raw_subnet a)); cbn [negb raw_comment raw_subnet];
    destruct (truthy (raw_comment a)); reflexivity.
Qed.

(** A merge step, seen from one key of the dictionary. *)
Lemma lookup_merge_one (d : dict centry) (a : raw_acl) (ip : string) :
  lookup ip (merge_one d a) =
  if String.eqb ip (raw_ip a) then
    Some match lookup ip d with
         | Some e => merge_entry e (raw_subnet (normalize a)) (raw_comment (normalize a))
         | None => mkC (raw_subnet (normalize a)) (raw_comment (normalize a))
         end
  else lookup ip d.
Proof.
  unfold merge_one, mem, subnet_at, comment_at.
  rewrite normalize_ip.
  set (s := raw_subnet (normalize a)); set (c := raw_comment (normalize a)).
  set (k := raw_ip a).
  destruct (lookup k d) as [e|] eqn:L; cbn [option_map is_eq].
  - (* the address is a key already *)
    assert (R : (if String.eqb ip k then Some (merge_entry e s c) else lookup ip d)
                = if String.eqb ip k
                  then Some match lookup ip d with
                            | Some e0 => merge_entry e0 s c
                            | None => mkC s c
                            end
                  else lookup ip d).
    { destruct (String.eqb ip k) eqn:E; auto.
      apply String.eqb_eq in E; subst ip; now rewrite L. }
    rewrite <- R; clear R. unfold merge_entry.
    destruct (py_eq (c_subnet e) s && py_eq (c_comment e) c).
    { destruct (String.eqb ip k) eqn:E; auto.
      apply String.eqb_eq in E; now subst ip. }
    destruct (py_eq (c_subnet e) sentinel && py_ne s sentinel).
    + unfold set_subnet at 1 2; rewrite L, lookup_assign_same.
      cbn [option_map is_eq c_comment c_subnet].
      destruct (py_eq (c_comment e) sentinel && py_ne c sentinel).
      * unfold set_comment; rewrite lookup_assign_same.
        cbn [c_subnet]. rewrite !lookup_assign.
        now destruct (String.eqb ip k).
      * unfold set_subnet; rewrite L. now rewrite lookup_assign.
    + rewrite L; cbn [option_map is_eq].
      destruct (py_eq (c_comment e) sentinel && py_ne c sentinel).
      * unfold set_comment; rewrite L. now rewrite lookup_assign.
      * destruct (String.eqb ip k) eqn:E; auto.
        apply String.eqb_eq in E; subst ip; rewrite L; now destruct e.
  - (* a new key *)
    rewrite lookup_assign.
    destruct (String.eqb ip k) eqn:E; auto.
    apply String.eqb_eq in E; subst ip; now rewrite L.
Qed.

Lemma merge_entry_subnet_kept (e : centry) (s c : pyval) :
  c_subnet e <> sentinel -> c_subnet (merge_entry e s c) = c_subnet e.
Proof.
  intro N; apply py_eq_sentinel_false in N; unfold merge_entry.
  destruct (py_eq (c_subnet e) s && py_eq (c_comment e) c); [reflexivity|].
  now rewrite N.
Qed.

Lemma merge_entry_comment_kept (e : centry) (s c : pyval) :
  c_comment e <> sentinel -> c_comment (merge_entry e s c) = c_comment e.
Proof.
  intro N; apply py_eq_sentinel_false in N; unfold merge_entry.
  destruct (py_eq (c_subnet e) s && py_eq (c_comment e) c); [reflexivity|].
  now rewrite N.
Qed.

(** A key of the dictionary stays a key, and its fields that are not the
    sentinel stay what they are, through one step. *)
Lemma merge_one_sticky (d : dict centry) (a : raw_acl) (ip : string) (e : centry) :
  lookup ip d = Some e ->
  exists e', lookup ip (merge_one d a) = Some e'
    /\ (c_subnet e <> sentinel -> c_subnet e' = c_subnet e)
    /\ (c_comment e <> sentinel -> c_comment e' = c_comment e).
Proof.
  intro L; rewrite lookup_merge_one, L.
  destruct (String.eqb ip (raw_ip a)).
  - eexists; split; [reflexivity|]; split; intro N.
    + now apply merge_entry_subnet_kept.
    + now apply merge_entry_comment_kept.
  - exists e; auto.
Qed.

Lemma first_real_cons (x : pyval) (vs : list pyval) :
  first_real (x :: vs) = if py_ne x sentinel then x else first_real vs.
Proof. unfold first_real; cbn [find]; now destruct (py_ne x sentinel). Qed.

Lemma first_real_one (x : pyval) : first_real [x] = x.
Proof.
  rewrite first_real_cons; unfold py_ne.
  destruct (py_eq x sentinel) eqn:E; cbn [negb]; auto.
  apply py_eq_sentinel in E; now subst.
Qed.

Lemma merge_entry_fields (e : centry) (s c : pyval) :
  c_subnet (merge_entry e s c) = first_real [c_subnet e; s]
  /\ c_comment (merge_entry e s c) = first_real [c_comment e; c].
Proof.
  rewrite (first_real_cons (c_subnet e)), (first_real_cons (c_comment e)).
  rewrite !first_real_one; unfold merge_entry, py_ne.
  destruct (py_eq (c_subnet e) s && py_eq (c_comment e) c) eqn:D.
  - apply andb_true_iff in D as [Ds Dc]; split.
    + destruct (py_eq (c_subnet e) sentinel) eqn:E; cbn [negb]; auto.
      apply py_eq_sentinel in E; rewrite E in Ds |- *.
      apply sentinel_py_eq in Ds; now subst.
    + destruct (py_eq (c_comment e) sentinel) eqn:E; cbn [negb]; auto.
      apply py_eq_sentinel in E; rewrite E in Dc |- *.
      apply sentinel_py_eq in Dc; now subst.
  - cbn [c_subnet c_comment]; split.
    + destruct (py_eq (c_subnet e) sentinel) eqn:E; cbn [negb andb]; auto.
      destruct (py_eq s sentinel) eqn:E'; cbn [negb]; auto.
      apply py_eq_sentinel in E, E'; congruence.
    + destruct (py_eq (c_comment e) sentinel) eqn:E; cbn [negb andb]; auto.
      destruct (py_eq c sentinel) eqn:E'; cbn [negb]; auto.
      apply py_eq_sentinel in E, E'; congruence.
Qed.

Lemma first_real_absorb (x y : pyval) (vs : list pyval) :
  first_real (first_real [x; y] :: vs) = first_real (x :: y :: vs).
Proof.
  rewrite (first_real_cons x [y]), first_real_one, (first_real_cons x (y :: vs)).
  destruct (py_ne x sentinel) eqn:X; [|reflexivity].
  now rewrite first_real_cons, X.
Qed.

(** The merge loop, seen from one key that the dictionary already has:
    each field ends as the first value that is not the sentinel, among the
    value held and the values the later entries for that address bring. *)
Lemma lookup_merge_all (body : list raw_acl) :
  forall (d : dict centry) (ip : string) (e : centry),
    lookup ip d = Some e ->
    lookup ip (merge_all d body) =
    Some (mkC (first_real (c_subnet e :: map merged_subnet (about ip body)))
              (first_real (c_comment e :: map merged_comment (about ip body)))).
Proof.
  unfold merge_all; induction body as [|a body IH]; intros d ip e L; cbn [fold_left].
  - cbn [about filter map]; rewrite !first_real_one; now destruct e.
  - pose proof (lookup_merge_one d a ip) as S; rewrite L in S.
    unfold about; cbn [filter]; fold (about ip body).
    destruct (String.eqb ip (raw_ip a)).
    + rewrite (IH _ _ _ S); cbn [map].
      destruct (merge_entry_fields e (raw_subnet (normalize a)) (raw_comment (normalize a)))
        as [-> ->].
      now rewrite !first_real_absorb.
    + now rewrite (IH _ _ _ S).
Qed.

(** The same from a dictionary that does not have the key yet. *)
Lemma lookup_merge_all_fresh (body : list raw_acl) :
  forall (d : dict centry) (ip : string),
    lookup ip d = None ->
    lookup ip (merge_all d body) =
    match about ip body with
    | [] => None
    | l => Some (mkC (first_real (map merged_subnet l)) (first_real (map merged_comment l)))
    end.
Proof.
  induction body as [|a body IH]; intros d ip L; [exact L|].
  change (merge_all d (a :: body)) with (merge_all (merge_one d a) body).
  pose proof (lookup_merge_one d a ip) as S; rewrite L in S.
  unfold about; cbn [filter]; fold (about ip body).
  destruct (String.eqb ip (raw_ip a)).
  - rewrite (lookup_merge_all body _ _ _ S); reflexivity.
  - rewrite (IH _ _ S); reflexivity.
Qed.

(** The keys of the consolidated dictionary stay distinct. *)
Lemma merge_one_NoDup (d : dict centry) (a : raw_acl) :
  NoDup (keys d) -> NoDup (keys (merge_one d a)).
Proof.
  intro ND; unfold merge_one.
  destruct (mem _ d).
  - destruct (_ && _); auto.
    assert (S1 : forall k v d0, NoDup (keys d0) -> NoDup (keys (set_subnet k v d0))).
    { intros k v d0 H; unfold set_subnet; destruct (lookup k d0); auto using assign_NoDup. }
    assert (S2 : forall k v d0, NoDup (keys d0) -> NoDup (keys (set_comment k v d0))).
    { intros k v d0 H; unfold set_comment; destruct (lookup k d0); auto using assign_NoDup. }
    destruct (_ && _); destruct (_ && _); auto.
  - now apply assign_NoDup.
Qed.

Lemma merge_all_NoDup (body : list raw_acl) (d : dict centry) :
  NoDup (keys d) -> NoDup (keys (merge_all d body)).
Proof.
  revert d; induction body as [|a body IH]; intros d ND; auto.
  apply IH, merge_one_NoDup, ND.
Qed.

(** C4: whatever is merged later, an address the consolidated dictionary
    holds stays in it, a subnet that is not the sentinel is never replaced
    and a comment that is not the sentinel is never replaced; each field
    ends as the first value that is not the sentinel among the one held and
    the ones merged later for that address. *)
Theorem consolidated_fields_sticky
    (d : dict centry) (later : list raw_acl) (ip : string) (e : centry) :
  lookup ip d = Some e ->
  exists e', lookup ip (merge_all d later) = Some e'
    /\ (c_subnet e <> sentinel -> c_subnet e' = c_subnet e)
    /\ (c_comment e <> sentinel -> c_comment e' = c_comment e)
    /\ c_subnet e' = first_real (c_subnet e :: map merged_subnet (about ip later))
    /\ c_comment e' = first_real (c_comment e :: map merged_comment (about ip later)).
Proof.
  intro L; eexists; split; [apply (lookup_merge_all later d ip e L)|].
  cbn [c_subnet c_comment]; rewrite !first_real_cons; unfold py_ne.
  repeat split; auto; intro N; apply py_eq_sentinel_false in N; now rewrite N.
Qed.

Lemma consolidated_fields_sticky_witness :
  exists e',
    lookup "1.2.3.4"
      (merge_all [("1.2.3.4", mkC (PInt 24) sentinel)]
                 [mkRaw "1.2.3.4" (PInt 16) (PStr "lab") PNone;
                  mkRaw "1.2.3.4" PNone PNone PNone;
                  mkRaw "1.2.3.4" sentinel (PStr "den") PNone]) = Some e'
    /\ c_subnet e' = PInt 24 /\ c_comment e' = PStr "lab".
Proof.
  destruct (consolidated_fields_sticky
              [("1.2.3.4", mkC (PInt 24) sentinel)]
              [mkRaw "1.2.3.4" (PInt 16) (PStr "lab") PNone;
               mkRaw "1.2.3.4" PNone PNone PNone;
               mkRaw "1.2.3.4" sentinel (PStr "den") PNone]
              "1.2.3.4" (mkC (PInt 24) sentinel) eq_refl)
    as (e' & L & Ks & _ & _ & Fc).
  exists e'; split; [exact L|]; split.
  - apply Ks; discriminate.
  - exact Fc.
Defined.

(** C1, evaluated: service A reports the address with a null subnet and a
    null comment, service B reports it with subnet 24 and comment "vpn".
    The comment is taken from B, the subnet is not: normalization has
    turned A's null subnet into 32, which the merge does not take for a
    placeholder. *)
Theorem end_to_end_merge_keeps_default_subnet :
  merge_all (merge_all [] [mkRaw "10.0.0.1" PNone PNone (PStr "a1")])
            [mkRaw "10.0.0.1" (PInt 24) (PStr "vpn") (PStr "b1")]
  = [("10.0.0.1", mkC (PInt 32) (PStr "vpn"))]
  /\ fst ((entries <- getACLentries demo_net "key" "A" (PStr "") "office" [] ;;
           getACLentries demo_net "key" "B" (PStr "") "office" entries) [])
     = Ret [("10.0.0.1", mkC (PInt 32) (PStr "vpn"))].
Proof. split; vm_compute; reflexivity. Qed.

(** C3: merging the entry whose subnet and comment are both the string
    "None" and then the entry with subnet 24 and comment "office" gives
    subnet 24 and comment "office" for the address, and so does merging the
    two in the other order. *)
Theorem placeholder_filling_either_order :
  let blank := mkRaw "1.2.3.4" (PStr "None") (PStr "None") PNone in
  let office := mkRaw "1.2.3.4" (PInt 24) (PStr "office") PNone in
  merge_one (merge_one [] blank) office = [("1.2.3.4", mkC (PInt 24) (PStr "office"))]
  /\ merge_one (merge_one [] office) blank = merge_one (merge_one [] blank) office.
Proof. split; reflexivity. Qed.

(** ** The normalizer *)

(** C9: normalization tests truthiness, not presence.  A subnet that is
    falsy becomes 32 and a comment that is falsy becomes "None", whatever
    the falsy value is: the integer 0 and the empty string as much as null;
    a truthy value, the string "None" as a subnet among them, is kept.  The
    merge records the normalized values. *)
Theorem normalize_replaces_falsy :
  (forall a : raw_acl,
      raw_subnet (normalize a) = (if truthy (raw_subnet a) then raw_subnet a else PInt 32)
      /\ raw_comment (normalize a)
         = (if truthy (raw_comment a) then raw_comment a else PStr "None")
      /\ raw_ip (normalize a) = raw_ip a
      /\ raw_id (normalize a) = raw_id a)
  /\ (forall ip c i,
         raw_subnet (normalize (mkRaw ip (PInt 0) c i)) = PInt 32
         /\ raw_subnet (normalize (mkRaw ip (PStr "") c i)) = PInt 32
         /\ raw_subnet (normalize (mkRaw ip PNone c i)) = PInt 32
         /\ raw_subnet (normalize (mkRaw ip (PStr "None") c i)) = PStr "None"
         /\ subnet_at ip (merge_one [] (mkRaw ip (PInt 0) c i)) = Some (PInt 32))
  /\ (forall ip s i,
         raw_comment (normalize (mkRaw ip s (PStr "") i)) = PStr "None"
         /\ raw_comment (normalize (mkRaw ip s PNone i)) = PStr "None"
         /\ comment_at ip (merge_one [] (mkRaw ip s (PStr "") i)) = Some (PStr "None")).
Proof.
  split; [|split].
  - intro a; rewrite normalize_subnet, normalize_comment, normalize_ip.
    repeat split; unfold normalize.
    destruct (negb (truthy (raw_subnet a))); cbn [raw_comment raw_id];
      destruct (negb (truthy (raw_comment a))); reflexivity.
  - intros ip c i; rewrite !normalize_subnet; cbn [raw_subnet].
    repeat split.
    unfold subnet_at; rewrite lookup_merge_one; cbn [raw_ip lookup].
    now rewrite String.eqb_refl, normalize_subnet.
  - intros ip s i; rewrite !normalize_comment; cbn [raw_comment].
    repeat split.
    unfold comment_at; rewrite lookup_merge_one; cbn [raw_ip lookup].
    now rewrite String.eqb_refl, normalize_comment.
Qed.

(** ** The planner *)

Lemma plan_step_planned_for (live : dict live_entry) (payload : list operation)
    (item : string * centry) :
  plan_step live payload item = (payload ++ planned_for live item)%list.
Proof.
  unfold plan_step, planned_for; destruct item as [ip e]; cbn [fst snd].
  destruct (lookup ip live) as [l|]; auto.
  destruct (_ && _); auto using app_nil_r.
Qed.

Lemma plan_fold (live : dict live_entry) (C : dict centry) :
  forall payload,
    fold_left (plan_step live) C payload
    = (payload ++ flat_map (planned_for live) C)%list.
Proof.
  induction C as [|item C IH]; intro payload; cbn [fold_left flat_map].
  - now rewrite app_nil_r.
  - now rewrite IH, plan_step_planned_for, app_assoc.
Qed.

Lemma plan_flat_map (C : dict centry) (live : dict live_entry) :
  plan C live = flat_map (planned_for live) C.
Proof. unfold plan; now rewrite plan_fold. Qed.

Lemma planned_for_ip (live : dict live_entry) (item : string * centry) (o : operation) :
  In o (planned_for live item) -> op_ip o = fst item.
Proof.
  destruct item as [ip e]; unfold planned_for.
  destruct (lookup ip live) as [l|].
  - destruct (_ && _); [intros []|intros [<-|[]]; reflexivity].
  - intros [<-|[]]; reflexivity.
Qed.

(** C5: the plan is, in the order of the consolidated dictionary, what
    each of its items calls for on its own: a create when the address is not
    live, nothing when the live subnet and comment equal the consolidated
    ones, an update carrying the live id otherwise.  A live entry with
    subnet 16, comment "old" and id "xyz" against a consolidated subnet 24
    and comment "vpn" gives the single update with id "xyz". *)
Theorem plan_case_analysis :
  (forall (C : dict centry) (live : dict live_entry),
      plan C live = flat_map (planned_for live) C)
  /\ plan [("10.0.0.1", mkC (PInt 24) (PStr "vpn"))]
          (build_existing [mkRaw "10.0.0.1" (PInt 16) (PStr "old") (PStr "xyz")])
     = [Update "10.0.0.1" (PInt 24) (PStr "vpn") (PStr "xyz")].
Proof. split; [exact plan_flat_map | reflexivity]. Qed.

Lemma plan_ips_are_keys (C : dict centry) (live : dict live_entry) :
  Forall (fun o => In (op_ip o) (keys C)) (plan C live).
Proof.
  rewrite plan_flat_map; apply Forall_forall; intros o H.
  apply in_flat_map in H as (item & HI & HO).
  apply planned_for_ip in HO; cbv beta; rewrite HO.
  unfold keys; now apply in_map.
Qed.

(** C6: every planned operation is about a key of the consolidated
    dictionary, and an address that is live but not consolidated gets no
    operation. *)
Theorem plan_never_deletes (C : dict centry) (live : dict live_entry) :
  Forall (fun o => In (op_ip o) (keys C)) (plan C live)
  /\ forall ip, mem ip live = true -> mem ip C = false ->
                Forall (fun o => op_ip o <> ip) (plan C live).
Proof.
  split; [apply plan_ips_are_keys|].
  intros ip _ HC.
  pose proof (plan_ips_are_keys C live) as F.
  rewrite Forall_forall in F |- *; intros o HO E; subst ip.
  unfold mem in HC; destruct (lookup (op_ip o) C) eqn:L; [discriminate|].
  apply lookup_None_keys in L; auto.
Qed.

Lemma plan_never_deletes_witness :
  Forall (fun o => op_ip o <> "192.0.2.7")
         (plan [("10.0.0.1", mkC (PInt 24) (PStr "vpn"))]
               (build_existing [mkRaw "192.0.2.7" (PInt 32) (PStr "stale") (PStr "q1");
                                mkRaw "10.0.0.1" (PInt 16) (PStr "old") (PStr "xyz")])).
Proof.
  apply (proj2 (plan_never_deletes
                  [("10.0.0.1", mkC (PInt 24) (PStr "vpn"))]
                  (build_existing [mkRaw "192.0.2.7" (PInt 32) (PStr "stale") (PStr "q1");
                                   mkRaw "10.0.0.1" (PInt 16) (PStr "old") (PStr "xyz")]))
               "192.0.2.7"); reflexivity.
Defined.

(** C10: the live entries are compared as fetched.  Where the live
    comment is null or empty and the consolidated comment is "None", or the
    live subnet is null and the consolidated subnet is 32, the two sides are
    found different and the plan holds an update for the address. *)
Theorem raw_live_placeholder_is_updated
    (C : dict centry) (live : dict live_entry) (ip : string)
    (e : centry) (l : live_entry) :
  In (ip, e) C ->
  lookup ip live = Some l ->
  (c_comment e = PStr "None" /\ (l_comment l = PNone \/ l_comment l = PStr ""))
  \/ (c_subnet e = PInt 32 /\ l_subnet l = PNone) ->
  planned_for live (ip, e) = [Update ip (c_subnet e) (c_comment e) (l_id l)]
  /\ In (Update ip (c_subnet e) (c_comment e) (l_id l)) (plan C live).
Proof.
  intros HI L H.
  assert (P : planned_for live (ip, e) = [Update ip (c_subnet e) (c_comment e) (l_id l)]).
  { unfold planned_for; rewrite L.
    destruct H as [[-> [-> | ->]] | [-> ->]];
      unfold py_eq; rewrite ?andb_false_r; reflexivity. }
  split; [exact P|].
  rewrite plan_flat_map; apply in_flat_map.
  exists (ip, e); split; [exact HI|]; rewrite P; now left.
Qed.

(** A service whose only entry has a null comment: the dictionary built
    from that very entry is planned against it as an update. *)
Lemma raw_live_placeholder_is_updated_witness :
  let body := [mkRaw "10.0.0.1" (PInt 24) PNone (PStr "xyz")] in
  In (Update "10.0.0.1" (PInt 24) (PStr "None") (PStr "xyz"))
     (plan (merge_all [] body) (build_existing body)).
Proof.
  apply (raw_live_placeholder_is_updated
           (merge_all [] [mkRaw "10.0.0.1" (PInt 24) PNone (PStr "xyz")])
           (build_existing [mkRaw "10.0.0.1" (PInt 24) PNone (PStr "xyz")])
           "10.0.0.1" (mkC (PInt 24) (PStr "None")) (mkLive (PStr "xyz") (PInt 24) PNone)).
  - now left.
  - reflexivity.
  - left; split; [reflexivity | now left].
Defined.

(** ** Traces *)

Lemma requests_of_app (a b : list event) :
  requests_of (a ++ b) = (requests_of a ++ requests_of b)%list.
Proof. unfold requests_of; apply flat_map_app. Qed.

Lemma patches_app (a b : list event) : patches (a ++ b) = (patches a ++ patches b)%list.
Proof. unfold patches; now rewrite requests_of_app, filter_app. Qed.

Lemma requests_of_prints (l : list operation) : requests_of (map EPrintOp l) = [].
Proof. induction l; auto. Qed.

Section Extends.
Context (P : list event -> Prop).
Hypothesis P_nil : P [].
Hypothesis P_app : forall a b, P a -> P b -> P (a ++ b)%list.

Lemma extends_ret {A} (a : A) : extends P (ret a).
Proof. intro t; exists []; now rewrite app_nil_r. Qed.

Lemma extends_exit {A} (c : Z) : extends P (@sys_exit A c).
Proof. intro t; exists []; now rewrite app_nil_r. Qed.

Lemma extends_raise {A} (e : string) : extends P (@raise A e).
Proof. intro t; exists []; now rewrite app_nil_r. Qed.

Lemma extends_bind {A B} (m : M A) (f : A -> M B) :
  extends P m -> (forall a, extends P (f a)) -> extends P (bind m f).
Proof.
  intros Hm Hf t; unfold bind.
  destruct (Hm t) as (n1 & E1 & P1).
  destruct (m t) as [[a|c|e] t1]; cbn [snd] in E1; subst t1.
  - destruct (Hf a (t ++ n1)%list) as (n2 & E2 & P2).
    exists (n1 ++ n2)%list; split; [now rewrite E2, app_assoc | auto].
  - now exists n1.
  - now exists n1.
Qed.

Lemma extends_print (line : string) : P [EPrint line] -> extends P (print line).
Proof. intros H t; now exists [EPrint line]. Qed.

Lemma extends_check_r (r : response) (msg : string) :
  (forall line, P [EPrint line]) -> extends P (check_r r msg).
Proof.
  intro H; unfold check_r; destruct (negb _); [|apply extends_ret].
  repeat (apply extends_bind; [now apply extends_print | intros _]).
  apply extends_exit.
Qed.
End Extends.

(** ** Reads do not write *)

Section ReadOnly.
Variable net : list event -> request -> response.
Variable token : string.

Let no_patch (new : list event) : Prop := patches new = [].

Local Lemma no_patch_nil : no_patch [].
Proof. reflexivity. Qed.

Local Lemma no_patch_app a b : no_patch a -> no_patch b -> no_patch (a ++ b)%list.
Proof. unfold no_patch; intros Ha Hb; now rewrite patches_app, Ha, Hb. Qed.

Local Lemma no_patch_print line : no_patch [EPrint line].
Proof. reflexivity. Qed.

Local Hint Resolve no_patch_nil no_patch_app no_patch_print : core.

Lemma requests_get_reads (url : string) : extends no_patch (requests_get net token url).
Proof. intro t; eexists; split; reflexivity. Qed.

Ltac reads :=
  repeat first
    [ apply extends_bind; [auto | | intro]
    | apply requests_get_reads
    | apply extends_check_r; auto
    | apply extends_print; auto
    | apply extends_ret; auto
    | apply extends_exit; auto
    | apply extends_raise; auto ].

Lemma getSVCver_reads (svcID : string) : extends no_patch (getSVCver net token svcID).
Proof.
  unfold getSVCver; reads.
  destruct (json _); reads.
  destruct (find _ _); reads.
Qed.

Lemma getACLidFromName_reads (svcID : string) (svcVER : pyval) (aclNAME : string) :
  extends no_patch (getACLidFromName net token svcID svcVER aclNAME).
Proof. unfold getACLidFromName; reads. destruct (json _); reads. Qed.

Lemma fetch_entries_reads (svcID : string) (svcVER : pyval) (aclNAME : string) :
  extends no_patch (fetch_entries net token svcID svcVER aclNAME).
Proof.
  unfold fetch_entries.
  apply extends_bind; auto.
  { destruct (negb _); [apply getSVCver_reads | reads]. }
  intro v; apply extends_bind; auto using getACLidFromName_reads.
  intro id; reads. destruct (json _); reads.
Qed.

Lemma check_then_print_reads (r : response) (msg line : string) :
  extends no_patch (check_r r msg ;; print line).
Proof. reads. Qed.

(** [getACLentries] never writes. *)
Lemma getACLentries_reads (svcID : string) (svcVER : pyval) (aclNAME : string)
    (aclENTRIES : dict centry) :
  extends no_patch (getACLentries net token svcID svcVER aclNAME aclENTRIES).
Proof.
  unfold getACLentries; apply extends_bind; auto using fetch_entries_reads.
  intros [[v id] es]; reads.
Qed.
End ReadOnly.

(** ** The write *)

Lemma for_each_print_op (l : list operation) :
  forall t, for_each l print_op t = (Ret tt, (t ++ map EPrintOp l)%list).
Proof.
  induction l as [|o l IH]; intro t; cbn [for_each map].
  - unfold ret; now rewrite app_nil_r.
  - unfold bind, print_op at 1; rewrite IH, <- app_assoc; reflexivity.
Qed.

Section Writing.
Variable net : list event -> request -> response.
Variable token : string.
Variable debug : pyval.

(** Lines 122-140 send nothing for an empty payload and exactly one
    PATCH, carrying the payload, otherwise. *)
Lemma apply_payload_patches (svcID : string) (svcVER aclID : pyval) (aclNAME : string)
    (payload : list operation) (t : list event) :
  exists new,
    snd (apply_payload net token debug svcID svcVER aclID aclNAME payload t)
    = (t ++ new)%list
    /\ patches new = match payload with
                     | [] => []
                     | _ => [patch_request token svcID aclID payload]
                     end
    /\ (payload = [] ->
        requests_of new = []
        /\ fst (apply_payload net token debug svcID svcVER aclID aclNAME payload t)
           = Ret tt).
Proof.
  unfold apply_payload, when.
  destruct payload as [|o rest].
  - (* nothing planned: [return] at line 126 *)
    destruct (truthy debug); cbn.
    + eexists; repeat split; reflexivity.
    + exists []; rewrite app_nil_r; repeat split; reflexivity.
  - set (payload := o :: rest).
    set (rq := patch_request token svcID aclID payload).
    assert (L : (length payload =? 0)%nat = false) by reflexivity.
    unfold bind at 1.
    set (p1 := if truthy debug then _ else _).
    assert (H1 : exists n1, p1 t = (Ret tt, (t ++ n1)%list) /\ patches n1 = []).
    { subst p1; destruct (truthy debug);
        [eexists; split; reflexivity | exists []; now rewrite app_nil_r]. }
    destruct H1 as (n1 & -> & N1); rewrite L.
    unfold bind at 1.
    set (p2 := if truthy debug then _ else _).
    assert (H2 : exists n2, p2 (t ++ n1)%list = (Ret tt, ((t ++ n1) ++ n2)%list)
                            /\ patches n2 = []).
    { subst p2; destruct (truthy debug).
      - unfold bind, print at 1; rewrite for_each_print_op, <- app_assoc.
        eexists; split; [reflexivity|].
        unfold patches; rewrite requests_of_app, requests_of_prints; reflexivity.
      - exists []; now rewrite app_nil_r. }
    destruct H2 as (n2 & -> & N2).
    unfold bind at 1, requests_patch, http; cbn [FASTLY_API_HEADERS app].
    fold payload; change (mkReq PATCH _ _ (Some payload)) with rq.
    set (rs := net _ rq).
    destruct (check_then_print_reads rs
                ("Updating ACL entries for ACL " ++ aclNAME
                   ++ " from service " ++ svcID ++ " failed. Exiting...")
                ("Result of PATCH API call: " ++ text rs)
                (((t ++ n1) ++ n2) ++ [ERequest rq rs])%list)
      as (n3 & -> & N3).
    exists (n1 ++ n2 ++ [ERequest rq rs] ++ n3)%list; split; [|split].
    + now rewrite !app_assoc.
    + rewrite !patches_app, N1, N2, N3; reflexivity.
    + discriminate.
Qed.
End Writing.

(** C7: [updateACLentries] only adds to the trace, and among what it adds
    there is a PATCH exactly when the fetch went through and the plan
    computed from the fetched entries has at least one operation; with an
    empty plan no PATCH is sent.  The one PATCH sent carries the plan. *)
Theorem write_only_for_nonempty_plan
    (net : list event -> request -> response) (token : string) (debug : pyval)
    (svcID : string) (svcVER : pyval) (aclNAME : string)
    (aclENTRIES : dict centry) (t : list event) :
  exists new,
    snd (updateACLentries net token debug svcID svcVER aclNAME aclENTRIES t)
    = (t ++ new)%list
    /\ patches new =
       match fst (fetch_entries net token svcID svcVER aclNAME t) with
       | Ret (_, aclID, es) =>
           match plan aclENTRIES (build_existing es) with
           | [] => []
           | payload => [patch_request token svcID aclID payload]
           end
       | _ => []
       end.
Proof.
  unfold updateACLentries, bind.
  destruct (fetch_entries_reads net token svcID svcVER aclNAME t) as (n1 & E1 & N1).
  destruct (fetch_entries net token svcID svcVER aclNAME t) as [[[[v id] es]|c|e] t1];
    cbn [fst snd] in *; subst t1.
  - destruct (apply_payload_patches net token debug svcID v id aclNAME
                (plan aclENTRIES (build_existing es)) (t ++ n1)%list)
      as (n2 & E2 & N2 & _).
    exists (n1 ++ n2)%list; split; [now rewrite E2, app_assoc|].
    rewrite patches_app, N1, N2.
    now destruct (plan aclENTRIES (build_existing es)).
  - now exists n1.
  - now exists n1.
Qed.

(** ** Failing fast *)

Lemma fail_fast_app (c : option Z) (n1 n2 : list event) :
  fail_fast None n1 -> fail_fast c n2 -> fail_fast c (n1 ++ n2).
Proof.
  induction n1 as [|ev n1 IH]; cbn [app fail_fast]; auto.
  destruct ev as [line|o|rq rs]; auto.
  destruct (status_code rs =? 200); auto.
  intros [H _]; discriminate.
Qed.

Lemma fail_fast_inv (c : option Z) (new : list event) :
  fail_fast c new ->
  forall pre rq rs post,
    new = (pre ++ ERequest rq rs :: post)%list ->
    status_code rs <> 200 ->
    c = Some 1 /\ exists msg, post = [EPrint msg; EPrint (text rs)].
Proof.
  revert c; induction new as [|ev new IH]; intros c F pre rq rs post E N.
  - destruct pre; discriminate.
  - destruct pre as [|ev' pre]; cbn [app] in E; injection E as -> E.
    + subst new; cbn [fail_fast] in F.
      apply Z.eqb_neq in N; rewrite N in F; exact F.
    + destruct ev' as [line|o|rq' rs']; cbn [fail_fast] in F; eauto.
      destruct (status_code rs' =? 200); eauto.
      destruct F as [_ [msg F]]; rewrite F in E.
      destruct pre as [|? [|? [|? ?]]]; discriminate.
Qed.

Lemma exit_code_Some {A} (o : outcome A) (c : Z) : exit_code o = Some c -> o = Exit c.
Proof. destruct o; cbn; congruence. Qed.

Lemma obeys_aborts {A} (m : M A) : obeys m -> aborts_on_failure m.
Proof.
  intros H t; destruct (H t) as (new & E & F).
  exists new; split; auto.
  intros pre rq rs post EN N.
  destruct (fail_fast_inv _ _ F pre rq rs post EN N) as [C M0].
  split; auto using exit_code_Some.
Qed.

Lemma obeys_ret {A} (a : A) : obeys (ret a).
Proof. intro t; exists []; cbn; now rewrite app_nil_r. Qed.

Lemma obeys_exit {A} (c : Z) : obeys (@sys_exit A c).
Proof. intro t; exists []; cbn; now rewrite app_nil_r. Qed.

Lemma obeys_raise {A} (e : string) : obeys (@raise A e).
Proof. intro t; exists []; cbn; now rewrite app_nil_r. Qed.

Lemma obeys_print (line : string) : obeys (print line).
Proof. intro t; exists [EPrint line]; cbn; auto. Qed.

Lemma obeys_bind {A B} (m : M A) (f : A -> M B) :
  obeys m -> (forall a, obeys (f a)) -> obeys (bind m f).
Proof.
  intros Hm Hf t; unfold bind.
  destruct (Hm t) as (n1 & E1 & F1).
  destruct (m t) as [[a|c|e] t1]; cbn [fst snd exit_code] in *; subst t1.
  - destruct (Hf a (t ++ n1)%list) as (n2 & E2 & F2).
    exists (n1 ++ n2)%list; split; [now rewrite E2, app_assoc|].
    now apply fail_fast_app.
  - now exists n1.
  - now exists n1.
Qed.

Lemma obeys_for_each_print_op (l : list operation) : obeys (for_each l print_op).
Proof.
  induction l as [|o l IH]; cbn [for_each]; [apply obeys_ret|].
  apply obeys_bind; auto.
  intro t; exists [EPrintOp o]; cbn; auto.
Qed.

(** Lines 22-26 on a response that is not a 200: two lines are printed,
    the message and the response body, and the script exits with code 1. *)
Lemma check_r_fails (r : response) (errormsg : string) (t : list event) :
  status_code r <> 200 ->
  check_r r errormsg t = (Exit 1, (t ++ [EPrint errormsg; EPrint (text r)])%list).
Proof.
  intro N; apply Z.eqb_neq in N; unfold check_r; rewrite N; cbn [negb].
  unfold bind, print, sys_exit; now rewrite <- app_assoc.
Qed.

Lemma check_r_passes (r : response) (errormsg : string) (t : list event) :
  status_code r = 200 -> check_r r errormsg t = (Ret tt, t).
Proof. intro E; unfold check_r; rewrite E; reflexivity. Qed.

(** A request whose response is checked at once, as every request of the
    script is. *)
Lemma checked_request {A} (net : list event -> request -> response)
    (rq : request) (msg : string) (k : response -> M A) (t : list event) :
  (r <- http net rq ;; check_r r msg ;; k r) t =
  let rs := net t rq in
  if status_code rs =? 200
  then k rs (t ++ [ERequest rq rs])%list
  else (Exit 1, (t ++ [ERequest rq rs; EPrint msg; EPrint (text rs)])%list).
Proof.
  cbv zeta; unfold bind at 1, http.
  unfold bind; destruct (status_code (net t rq) =? 200) eqn:S.
  - apply Z.eqb_eq in S; now rewrite check_r_passes.
  - apply Z.eqb_neq in S; rewrite check_r_fails by exact S.
    now rewrite <- app_assoc.
Qed.

Lemma obeys_checked {A} (net : list event -> request -> response)
    (rq : request) (msg : string) (k : response -> M A) :
  (forall r, obeys (k r)) ->
  obeys (r <- http net rq ;; check_r r msg ;; k r).
Proof.
  intros Hk t; rewrite checked_request; cbv zeta.
  set (rs := net t rq).
  destruct (status_code rs =? 200) eqn:S.
  - destruct (Hk rs (t ++ [ERequest rq rs])%list) as (n2 & E2 & F2).
    exists (ERequest rq rs :: n2); split.
    + rewrite E2, <- app_assoc; reflexivity.
    + cbn [fail_fast]; now rewrite S.
  - exists [ERequest rq rs; EPrint msg; EPrint (text rs)]; split; [reflexivity|].
    cbn [fail_fast fst exit_code]; rewrite S; eauto.
Qed.

Section FailFast.
Variable net : list event -> request -> response.
Variable token : string.
Variable debug : pyval.

Ltac fast :=
  repeat first
    [ apply obeys_checked; intro
    | apply obeys_bind; [|intro]
    | apply obeys_print
    | apply obeys_for_each_print_op
    | apply obeys_ret
    | apply obeys_exit
    | apply obeys_raise ].

Lemma getSVCver_obeys (svcID : string) : obeys (getSVCver net token svcID).
Proof.
  unfold getSVCver, requests_get; apply obeys_checked; intro r.
  destruct (json r); fast. destruct (find _ _); fast.
Qed.

Lemma getACLidFromName_obeys (svcID : string) (svcVER : pyval) (aclNAME : string) :
  obeys (getACLidFromName net token svcID svcVER aclNAME).
Proof.
  unfold getACLidFromName, requests_get; apply obeys_checked; intro r.
  destruct (json r); fast.
Qed.

Lemma fetch_entries_obeys (svcID : string) (svcVER : pyval) (aclNAME : string) :
  obeys (fetch_entries net token svcID svcVER aclNAME).
Proof.
  unfold fetch_entries; apply obeys_bind.
  { destruct (negb _); [apply getSVCver_obeys | apply obeys_ret]. }
  intro v; apply obeys_bind; [apply getACLidFromName_obeys|].
  intro id; unfold requests_get; apply obeys_checked; intro r.
  destruct (json r); fast.
Qed.

Lemma getACLentries_obeys (svcID : string) (svcVER : pyval) (aclNAME : string)
    (aclENTRIES : dict centry) :
  obeys (getACLentries net token svcID svcVER aclNAME aclENTRIES).
Proof.
  unfold getACLentries; apply obeys_bind; [apply fetch_entries_obeys|].
  intros [[v id] es]; apply obeys_ret.
Qed.

Lemma apply_payload_obeys (svcID : string) (svcVER aclID : pyval) (aclNAME : string)
    (payload : list operation) :
  obeys (apply_payload net token debug svcID svcVER aclID aclNAME payload).
Proof.
  unfold apply_payload, when, requests_patch.
  apply obeys_bind; [destruct (truthy debug); fast|intros _].
  destruct (_ =? _)%nat; [apply obeys_ret|].
  apply obeys_bind; [destruct (truthy debug); fast|intros _].
  cbv zeta; apply obeys_checked; intro r; fast.
Qed.

Lemma updateACLentries_obeys (svcID : string) (svcVER : pyval) (aclNAME : string)
    (aclENTRIES : dict centry) :
  obeys (updateACLentries net token debug svcID svcVER aclNAME aclENTRIES).
Proof.
  unfold updateACLentries; apply obeys_bind; [apply fetch_entries_obeys|].
  intros [[v id] es]; apply apply_payload_obeys.
Qed.
End FailFast.

(** C8: a response whose status is not 200 ends the run.  [check_r]
    prints the message and then the response body and exits with code 1;
    and in [getACLentries] and in [updateACLentries], wherever such a
    response sits in the trace, the outcome is exit code 1 and after that
    response come the message and the body and nothing more: no further
    request, no merge, no write. *)
Theorem failure_is_fatal
    (net : list event -> request -> response) (token : string) (debug : pyval) :
  (forall r errormsg t,
      status_code r <> 200 ->
      check_r r errormsg t = (Exit 1, (t ++ [EPrint errormsg; EPrint (text r)])%list))
  /\ (forall svcID svcVER aclNAME aclENTRIES,
         aborts_on_failure (getACLentries net token svcID svcVER aclNAME aclENTRIES))
  /\ (forall svcID svcVER aclNAME aclENTRIES,
         aborts_on_failure
           (updateACLentries net token debug svcID svcVER aclNAME aclENTRIES)).
Proof.
  split; [exact check_r_fails|]; split; intros.
  - apply obeys_aborts, getACLentries_obeys.
  - apply obeys_aborts, updateACLentries_obeys.
Qed.

Lemma failure_is_fatal_witness :
  check_r (mkResp 404 "Record not found" BOther) "failed" []
  = (Exit 1, [EPrint "failed"; EPrint "Record not found"])
  /\ fst (getACLentries demo_net "key" "gone" (PStr "") "office" [] []) = Exit 1.
Proof.
  split.
  - apply (proj1 (failure_is_fatal demo_net "key" PNone)); discriminate.
  - destruct (proj1 (proj2 (failure_is_fatal demo_net "key" PNone))
                "gone" (PStr "") "office" [] [])
      as (new & E & H).
    cbn [app] in E.
    refine (proj1 (H [] _ _ _ _ _)).
    + rewrite <- E; reflexivity.
    + discriminate.
Defined.

(** ** The entry point *)

Lemma for_each_print (A : Type) (g : A -> string) (l : list A) :
  forall t, for_each l (fun x => print (g x)) t
            = (Ret tt, (t ++ map (fun x => EPrint (g x)) l)%list).
Proof.
  induction l as [|x l IH]; intro t; cbn [for_each map].
  - unfold ret; now rewrite app_nil_r.
  - unfold bind, print at 1; rewrite IH, <- app_assoc; reflexivity.
Qed.

Lemma requests_of_map_print (A : Type) (g : A -> string) (l : list A) :
  requests_of (map (fun x => EPrint (g x)) l) = [].
Proof. induction l; auto. Qed.

(** C2, evaluated: whatever the arguments, [main] prints its
    announcements and exits with code 0 without a single request; with one
    service id the whole run is three printed lines. *)
Theorem main_issues_no_request :
  (forall (args : arguments) (t : list event),
      exists new,
        main args t = (Exit 0, (t ++ new)%list) /\ requests_of new = [])
  /\ main (mkArgs ["SVC1"] "office" (PBool false)) []
     = (Exit 0,
        [EPrint "Getting 'office' ACL entries from service 'SVC1'...";
         EPrint "Updating 'office' ACL entries for service 'SVC1'...";
         EPrint (newline ++ "Done." ++ newline)]).
Proof.
  split; [|reflexivity].
  intros args t; unfold main; cbv zeta.
  unfold bind; rewrite !for_each_print.
  unfold print, sys_exit; rewrite <- !app_assoc.
  eexists; split; [reflexivity|].
  now rewrite !requests_of_app, !requests_of_map_print.
Qed.

(** * Further properties of the code *)

(** ** More dictionary laws *)

Lemma py_eq_refl (v : pyval) : py_eq v v = true.
Proof.
  destruct v as [|b|z|s]; unfold py_eq; auto using Z.eqb_refl, String.eqb_refl.
  now destruct b.
Qed.

Section DictMore.
Context {V : Type}.
Implicit Types (d : dict V) (k : string) (v : V).

Lemma assign_same_value k v d : lookup k d = Some v -> assign k v d = d.
Proof.
  induction d as [|[k' v'] d IH]; cbn [lookup assign]; [discriminate|].
  destruct (String.eqb k k'); [now intros [= ->] | intro H; now rewrite IH].
Qed.

Lemma assign_assign k v1 v2 d : assign k v2 (assign k v1 d) = assign k v2 d.
Proof.
  induction d as [|[k' v'] d IH]; cbn [assign].
  - now rewrite String.eqb_refl.
  - destruct (String.eqb k k') eqn:E; cbn [assign]; rewrite E; [reflexivity|].
    now rewrite IH.
Qed.

Lemma assign_fresh k v d : lookup k d = None -> assign k v d = (d ++ [(k, v)])%list.
Proof.
  induction d as [|[k' v'] d IH]; cbn [lookup assign app]; [reflexivity|].
  destruct (String.eqb k k'); [discriminate | intro H; now rewrite IH].
Qed.

Lemma lookup_app_l k d d' :
  lookup k (d ++ d')%list = match lookup k d with Some v => Some v | None => lookup k d' end.
Proof.
  induction d as [|[k' v'] d IH]; cbn [lookup app]; [reflexivity|].
  now destruct (String.eqb k k').
Qed.

Lemma mem_keys k d : mem k d = true <-> In k (keys d).
Proof.
  unfold mem; destruct (lookup k d) eqn:L.
  - split; auto; intros _.
    apply lookup_Some_In in L; unfold keys; change k with (fst (k, v)); now apply in_map.
  - apply lookup_None_keys in L; split; [discriminate | tauto].
Qed.

(** Two dictionaries with the same keys in the same order, all distinct,
    and the same value under each key are the same dictionary. *)
Lemma dict_ext d1 : forall d2,
  keys d1 = keys d2 -> NoDup (keys d1) ->
  (forall k, lookup k d1 = lookup k d2) -> d1 = d2.
Proof.
  induction d1 as [|[k v] d1 IH]; intros [|[k' v'] d2] K ND L; try discriminate; auto.
  cbn [keys map fst] in K; injection K as <- K.
  inversion ND as [|? ? Hk ND']; subst.
  pose proof (L k) as Lk; cbn [lookup] in Lk; rewrite String.eqb_refl in Lk.
  injection Lk as <-.
  f_equal; apply IH; auto.
  intro k0; specialize (L k0); cbn [lookup] in L.
  destruct (String.eqb k0 k) eqn:E; auto.
  apply String.eqb_eq in E; subst k0.
  assert (N1 : lookup k d1 = None) by now apply lookup_None_keys.
  assert (N2 : lookup k d2 = None).
  { apply lookup_None_keys; unfold keys in *; now rewrite <- K. }
  now rewrite N1, N2.
Qed.

Lemma Forall_assign (P : string * V -> Prop) k v d :
  (forall k', P (k', v)) -> Forall P d -> Forall P (assign k v d).
Proof.
  intros Pv F; induction F as [|[k' v'] d H F IH]; cbn [assign].
  - constructor; auto.
  - destruct (String.eqb k k'); constructor; auto.
Qed.
End DictMore.

(** ** The normalizer and the merger, further *)

Lemma merged_truthy (a : raw_acl) :
  truthy (merged_subnet a) = true /\ truthy (merged_comment a) = true.
Proof.
  unfold merged_subnet, merged_comment; rewrite normalize_subnet, normalize_comment.
  split.
  - destruct (truthy (raw_subnet a)) eqn:E; [exact E | reflexivity].
  - destruct (truthy (raw_comment a)) eqn:E; [exact E | reflexivity].
Qed.

(** X1: normalizing twice is normalizing once, and a normalized entry has
    neither a falsy subnet nor a falsy comment. *)
Theorem normalize_idempotent (a : raw_acl) :
  normalize (normalize a) = normalize a
  /\ truthy (raw_subnet (normalize a)) = true
  /\ truthy (raw_comment (normalize a)) = true.
Proof.
  destruct (merged_truthy a) as [Ts Tc]; unfold merged_subnet, merged_comment in *.
  split; [|now split].
  unfold normalize at 1; rewrite Ts; cbn [negb]; now rewrite Tc.
Qed.

(** A merge step is one assignment to the entry's address. *)
Lemma merge_one_assign (d : dict centry) (a : raw_acl) :
  merge_one d a =
  assign (raw_ip a)
         match lookup (raw_ip a) d with
         | Some e => merge_entry e (merged_subnet a) (merged_comment a)
         | None => mkC (merged_subnet a) (merged_comment a)
         end d.
Proof.
  unfold merge_one, mem, subnet_at, comment_at, merged_subnet, merged_comment.
  rewrite normalize_ip.
  set (s := raw_subnet (normalize a)); set (c := raw_comment (normalize a)).
  set (k := raw_ip a).
  destruct (lookup k d) as [e|] eqn:L; cbn [option_map is_eq]; [|reflexivity].
  unfold merge_entry.
  destruct (py_eq (c_subnet e) s && py_eq (c_comment e) c).
  { symmetry; now apply assign_same_value. }
  destruct (py_eq (c_subnet e) sentinel && py_ne s sentinel).
  - unfold set_subnet at 1 2; rewrite L, lookup_assign_same.
    cbn [option_map is_eq c_comment c_subnet].
    destruct (py_eq (c_comment e) sentinel && py_ne c sentinel).
    + unfold set_comment; rewrite lookup_assign_same; cbn [c_subnet].
      apply assign_assign.
    + unfold set_subnet; now rewrite L.
  - rewrite L; cbn [option_map is_eq].
    destruct (py_eq (c_comment e) sentinel && py_ne c sentinel).
    + unfold set_comment; now rewrite L.
    + symmetry; apply assign_same_value; now destruct e.
Qed.

Lemma centry_eq (e e' : centry) :
  c_subnet e = c_subnet e' -> c_comment e = c_comment e' -> e = e'.
Proof. destruct e, e'; cbn; congruence. Qed.

Lemma first_real_twice (x y : pyval) : first_real [first_real [x; y]; y] = first_real [x; y].
Proof.
  rewrite first_real_absorb, !first_real_cons.
  destruct (py_ne x sentinel); auto.
  destruct (py_ne y sentinel); auto.
Qed.

Lemma merge_entry_idem (e : centry) (s c : pyval) :
  merge_entry (merge_entry e s c) s c = merge_entry e s c.
Proof.
  apply centry_eq.
  - destruct (merge_entry_fields (merge_entry e s c) s c) as [-> _].
    destruct (merge_entry_fields e s c) as [-> _]; apply first_real_twice.
  - destruct (merge_entry_fields (merge_entry e s c) s c) as [_ ->].
    destruct (merge_entry_fields e s c) as [_ ->]; apply first_real_twice.
Qed.

(** X2: merging an entry a second time, right after the first, changes
    nothing: the dictionary, order included, is the one the first merge
    left. *)
Theorem merge_one_idempotent (d : dict centry) (a : raw_acl) :
  merge_one (merge_one d a) a = merge_one d a.
Proof.
  rewrite (merge_one_assign (merge_one d a) a), (merge_one_assign d a).
  rewrite lookup_assign_same, assign_assign; f_equal.
  destruct (lookup (raw_ip a) d) as [e|]; [apply merge_entry_idem|].
  unfold merge_entry; cbn [c_subnet c_comment]; now rewrite !py_eq_refl.
Qed.

(** *** Keys *)

Lemma keys_merge_one (d : dict centry) (a : raw_acl) :
  keys (merge_one d a) = if mem (raw_ip a) d then keys d else (keys d ++ [raw_ip a])%list.
Proof. rewrite merge_one_assign; apply keys_assign. Qed.

Lemma keys_merge_all (body : list raw_acl) :
  forall d : dict centry,
    (exists added, keys (merge_all d body) = (keys d ++ added)%list)
    /\ (forall ip, In ip (keys (merge_all d body))
                   <-> In ip (keys d) \/ In ip (map raw_ip body)).
Proof.
  induction body as [|a body IH]; intro d.
  - split; [exists []; now rewrite app_nil_r | cbn; tauto].
  - change (merge_all d (a :: body)) with (merge_all (merge_one d a) body).
    destruct (IH (merge_one d a)) as [[added E] I]; rewrite keys_merge_one in E, I.
    split.
    + destruct (mem (raw_ip a) d); [now exists added|].
      exists ([raw_ip a] ++ added)%list; now rewrite E, app_assoc.
    + intro ip; rewrite I; cbn [map In].
      destruct (mem (raw_ip a) d) eqn:M.
      * apply mem_keys in M. split; [tauto|]. intros [H|[<-|H]]; auto.
      * rewrite in_app_iff; cbn [In]; tauto.
Qed.

(** X3: merging never drops or reorders a key: the keys before are a
    prefix of the keys after; the keys after are the keys before and the
    addresses merged, no other; and distinct keys stay distinct. *)
Theorem merge_all_keys (d : dict centry) (body : list raw_acl) :
  NoDup (keys d) ->
  NoDup (keys (merge_all d body))
  /\ (exists added, keys (merge_all d body) = (keys d ++ added)%list)
  /\ (forall ip, In ip (keys (merge_all d body))
                 <-> In ip (keys d) \/ In ip (map raw_ip body)).
Proof.
  intro ND; split; [now apply merge_all_NoDup | apply keys_merge_all].
Qed.

Lemma merge_all_keys_witness :
  let d := [("10.0.0.9", mkC (PInt 32) sentinel)] in
  let body := [mkRaw "10.0.0.1" PNone PNone PNone;
               mkRaw "10.0.0.9" (PInt 8) PNone PNone;
               mkRaw "10.0.0.1" (PInt 24) (PStr "vpn") PNone] in
  NoDup (keys (merge_all d body))
  /\ (exists added, keys (merge_all d body) = (keys d ++ added)%list)
  /\ (forall ip, In ip (keys (merge_all d body))
                 <-> In ip (keys d) \/ In ip (map raw_ip body)).
Proof.
  intros d body; apply (merge_all_keys d body).
  repeat constructor; cbn; tauto.
Defined.

(** *** Locality *)

Lemma lookup_merge_all_other (body : list raw_acl) :
  forall (d : dict centry) (ip : string),
    about ip body = [] -> lookup ip (merge_all d body) = lookup ip d.
Proof.
  induction body as [|a body IH]; intros d ip H; [reflexivity|].
  change (merge_all d (a :: body)) with (merge_all (merge_one d a) body).
  unfold about in H; cbn [filter] in H.
  destruct (String.eqb ip (raw_ip a)) eqn:E; [discriminate|].
  rewrite (IH _ _ H), lookup_merge_one; now rewrite E.
Qed.

Lemma about_about (ip : string) (body : list raw_acl) :
  about ip (about ip body) = about ip body.
Proof.
  unfold about; induction body as [|a body IH]; cbn [filter]; auto.
  destruct (String.eqb ip (raw_ip a)) eqn:E; cbn [filter]; rewrite ?E, IH; reflexivity.
Qed.

(** X4: what the merge records for an address depends on the entries about
    that address alone: merging only those gives the same record.  An
    address none of the entries is about keeps the record it had. *)
Theorem merge_is_local (d : dict centry) (body : list raw_acl) (ip : string) :
  lookup ip (merge_all d body) = lookup ip (merge_all d (about ip body))
  /\ (about ip body = [] -> lookup ip (merge_all d body) = lookup ip d).
Proof.
  split; [|apply lookup_merge_all_other].
  destruct (lookup ip d) as [e|] eqn:L.
  - rewrite !(lookup_merge_all _ _ _ _ L); now rewrite about_about.
  - rewrite !(lookup_merge_all_fresh _ _ _ L); now rewrite about_about.
Qed.

Lemma merge_is_local_witness :
  lookup "10.0.0.9"
         (merge_all [("10.0.0.9", mkC (PInt 32) sentinel)]
                    [mkRaw "10.0.0.1" PNone PNone PNone;
                     mkRaw "10.0.0.1" (PInt 24) (PStr "vpn") PNone])
  = Some (mkC (PInt 32) sentinel).
Proof.
  apply (proj2 (merge_is_local [("10.0.0.9", mkC (PInt 32) sentinel)]
                  [mkRaw "10.0.0.1" PNone PNone PNone;
                   mkRaw "10.0.0.1" (PInt 24) (PStr "vpn") PNone] "10.0.0.9")).
  reflexivity.
Defined.

(** *** No falsy field *)

Lemma merge_entry_complete (e : centry) (s c : pyval) :
  complete e = true -> truthy s = true -> truthy c = true ->
  complete (merge_entry e s c) = true.
Proof.
  unfold complete, merge_entry; intros He Hs Hc.
  apply andb_true_iff in He as [H1 H2].
  destruct (py_eq (c_subnet e) s && py_eq (c_comment e) c); cbn [c_subnet c_comment].
  - now rewrite H1, H2.
  - destruct (py_eq (c_subnet e) sentinel && py_ne s sentinel);
      destruct (py_eq (c_comment e) sentinel && py_ne c sentinel);
      now rewrite ?H1, ?H2, ?Hs, ?Hc.
Qed.

Lemma merge_one_complete (d : dict centry) (a : raw_acl) :
  Forall (fun item => complete (snd item) = true) d ->
  Forall (fun item => complete (snd item) = true) (merge_one d a).
Proof.
  intro F; rewrite merge_one_assign.
  destruct (merged_truthy a) as [Ts Tc].
  apply Forall_assign; auto; intros k'; cbn [snd].
  destruct (lookup (raw_ip a) d) as [e|] eqn:L.
  - apply merge_entry_complete; auto.
    apply lookup_Some_In in L; rewrite Forall_forall in F; exact (F _ L).
  - unfold complete; cbn [c_subnet c_comment]; now rewrite Ts, Tc.
Qed.

Lemma merge_all_complete (body : list raw_acl) :
  forall d : dict centry,
    Forall (fun item => complete (snd item) = true) d ->
    Forall (fun item => complete (snd item) = true) (merge_all d body).
Proof.
  induction body as [|a body IH]; intros d F; auto.
  apply IH, merge_one_complete, F.
Qed.

(** X5: a dictionary consolidated from nothing holds no falsy subnet and
    no falsy comment (no null, no 0, no empty string), whatever the services
    returned; so no planned operation carries one. *)
Theorem consolidated_fields_never_falsy (body : list raw_acl) (live : dict live_entry) :
  Forall (fun item => complete (snd item) = true) (merge_all [] body)
  /\ Forall (fun o => op_complete o = true) (plan (merge_all [] body) live).
Proof.
  assert (F : Forall (fun item => complete (snd item) = true) (merge_all [] body))
    by (apply merge_all_complete; constructor).
  split; auto.
  rewrite plan_flat_map; apply Forall_forall; intros o H.
  apply in_flat_map in H as ([ip e] & HI & HO).
  rewrite Forall_forall in F; specialize (F _ HI); cbn [snd] in F.
  unfold planned_for in HO.
  destruct (lookup ip live) as [l|].
  - destruct (_ && _); [destruct HO | destruct HO as [<-|[]]; exact F].
  - destruct HO as [<-|[]]; exact F.
Qed.

(** *** Merging the same entries again *)

Lemma first_real_sentinel_or_real (vs : list pyval) :
  first_real vs = sentinel \/ py_ne (first_real vs) sentinel = true.
Proof.
  unfold first_real; destruct (find _ vs) eqn:F; auto.
  right; now apply find_some in F.
Qed.

Lemma first_real_again (vs : list pyval) : first_real (first_real vs :: vs) = first_real vs.
Proof.
  rewrite first_real_cons.
  destruct (first_real_sentinel_or_real vs) as [E|E]; [|now rewrite E].
  rewrite E; reflexivity.
Qed.

Lemma first_real_again_cons (x : pyval) (vs : list pyval) :
  first_real (first_real (x :: vs) :: vs) = first_real (x :: vs).
Proof.
  rewrite (first_real_cons x vs).
  destruct (py_ne x sentinel) eqn:X.
  - now rewrite first_real_cons, X.
  - apply first_real_again.
Qed.

Lemma keys_merge_all_present (body : list raw_acl) :
  forall d : dict centry,
    (forall a, In a body -> mem (raw_ip a) d = true) ->
    keys (merge_all d body) = keys d.
Proof.
  induction body as [|a body IH]; intros d H; [reflexivity|].
  change (merge_all d (a :: body)) with (merge_all (merge_one d a) body).
  assert (K : keys (merge_one d a) = keys d).
  { rewrite keys_merge_one, H; [reflexivity | now left]. }
  rewrite IH, K; auto.
  intros b Hb; apply mem_keys; rewrite K; apply mem_keys, H; now right.
Qed.

Lemma about_nil_not_in (ip : string) (body : list raw_acl) :
  about ip body = [] -> ~ In ip (map raw_ip body).
Proof.
  unfold about; induction body as [|a body IH]; cbn [filter map In]; [tauto|].
  destruct (String.eqb ip (raw_ip a)) eqn:E; [discriminate|].
  apply String.eqb_neq in E; intros H [G|G]; [congruence | now apply IH].
Qed.

(** X6: merging the entries of a service a second time (a service id given
    twice) changes nothing: the dictionary after the second pass is the
    dictionary after the first. *)
Theorem merge_all_idempotent (d : dict centry) (body : list raw_acl) :
  NoDup (keys d) ->
  merge_all (merge_all d body) body = merge_all d body.
Proof.
  intro ND.
  assert (K : keys (merge_all (merge_all d body) body) = keys (merge_all d body)).
  { apply keys_merge_all_present; intros a Ha; apply mem_keys.
    destruct (keys_merge_all body d) as (_ & I); apply I; right.
    now apply in_map. }
  apply dict_ext; auto using merge_all_NoDup.
  intro ip; destruct (lookup ip (merge_all d body)) as [e'|] eqn:L'.
  - rewrite (lookup_merge_all body _ _ _ L').
    destruct (lookup ip d) as [e|] eqn:L.
    + rewrite (lookup_merge_all body _ _ _ L) in L'; injection L' as <-.
      cbn [c_subnet c_comment]; now rewrite !first_real_again_cons.
    + rewrite (lookup_merge_all_fresh body _ _ L) in L'.
      destruct (about ip body) as [|a l]; [discriminate|]; injection L' as <-.
      cbn [c_subnet c_comment]; now rewrite !first_real_again.
  - apply lookup_None_keys; rewrite K; now apply lookup_None_keys.
Qed.

Lemma merge_all_idempotent_witness :
  let body := [mkRaw "10.0.0.1" PNone PNone PNone;
               mkRaw "10.0.0.2" sentinel (PStr "lab") PNone;
               mkRaw "10.0.0.1" (PInt 24) (PStr "vpn") PNone;
               mkRaw "10.0.0.2" (PInt 16) (PStr "den") PNone] in
  merge_all (merge_all [] body) body = merge_all [] body.
Proof. intro body; apply (merge_all_idempotent [] body); constructor. Defined.

(** ** The planner, further *)

Lemma planned_for_converged (live : dict live_entry) (item : string * centry) :
  planned_for live item = [] <-> converged live item = true.
Proof.
  destruct item as [ip e]; unfold planned_for, converged; cbn [fst snd].
  destruct (lookup ip live) as [l|]; [|split; discriminate].
  destruct (_ && _); split; auto; discriminate.
Qed.

(** X7: what the plan holds is justified by the two dictionaries.  A
    create is for a consolidated item whose address is not live; an update
    is for a consolidated item whose address is live, carries the id of that
    live entry, and is planned only when the subnet or the comment differ.
    Both carry the consolidated subnet and comment. *)
Theorem plan_sound (C : dict centry) (live : dict live_entry) (o : operation) :
  In o (plan C live) ->
  match o with
  | Create ip s c => In (ip, mkC s c) C /\ lookup ip live = None
  | Update ip s c id =>
      In (ip, mkC s c) C
      /\ exists l, lookup ip live = Some l /\ l_id l = id
                   /\ py_eq s (l_subnet l) && py_eq c (l_comment l) = false
  end.
Proof.
  rewrite plan_flat_map; intro H.
  apply in_flat_map in H as ([ip e] & HI & HO).
  unfold planned_for in HO; destruct e as [s c]; cbn [c_subnet c_comment] in HO.
  destruct (lookup ip live) as [l|] eqn:L.
  - destruct (py_eq s (l_subnet l) && py_eq c (l_comment l)) eqn:E;
      [destruct HO | destruct HO as [<-|[]]].
    split; auto; exists l; auto.
  - destruct HO as [<-|[]]; auto.
Qed.

Lemma plan_sound_witness :
  In ("10.0.0.1", mkC (PInt 24) (PStr "vpn")) [("10.0.0.1", mkC (PInt 24) (PStr "vpn"))]
  /\ exists l,
      lookup "10.0.0.1"
             (build_existing [mkRaw "10.0.0.1" (PInt 16) (PStr "old") (PStr "xyz")])
      = Some l
      /\ l_id l = PStr "xyz"
      /\ py_eq (PInt 24) (l_subnet l) && py_eq (PStr "vpn") (l_comment l) = false.
Proof.
  apply (plan_sound [("10.0.0.1", mkC (PInt 24) (PStr "vpn"))]
           (build_existing [mkRaw "10.0.0.1" (PInt 16) (PStr "old") (PStr "xyz")])
           (Update "10.0.0.1" (PInt 24) (PStr "vpn") (PStr "xyz"))).
  now left.
Defined.

(** X8: the plan is empty exactly when every consolidated item is live
    with an equal subnet and an equal comment. *)
Theorem plan_empty_iff_converged (C : dict centry) (live : dict live_entry) :
  plan C live = [] <-> forallb (converged live) C = true.
Proof.
  rewrite plan_flat_map; induction C as [|item C IH]; cbn [flat_map forallb].
  - tauto.
  - rewrite andb_true_iff, <- IH, <- planned_for_converged; split.
    + intro H; now apply app_eq_nil in H.
    + intros [-> ->]; reflexivity.
Qed.

Lemma plan_empty_iff_converged_witness :
  plan [("10.0.0.1", mkC (PInt 24) (PStr "vpn")); ("10.0.0.2", mkC (PInt 32) sentinel)]
       (build_existing [mkRaw "10.0.0.2" (PInt 32) sentinel (PStr "q2");
                        mkRaw "10.0.0.1" (PInt 24) (PStr "vpn") (PStr "q1")])
  = [].
Proof.
  apply (proj2 (plan_empty_iff_converged
                  [("10.0.0.1", mkC (PInt 24) (PStr "vpn"));
                   ("10.0.0.2", mkC (PInt 32) sentinel)]
                  (build_existing [mkRaw "10.0.0.2" (PInt 32) sentinel (PStr "q2");
                                   mkRaw "10.0.0.1" (PInt 24) (PStr "vpn") (PStr "q1")]))).
  reflexivity.
Defined.

Lemma plan_ips (C : dict centry) (live : dict live_entry) :
  map op_ip (plan C live) = keys (filter (fun item => negb (converged live item)) C).
Proof.
  rewrite plan_flat_map; unfold keys.
  induction C as [|[ip e] C IH]; cbn [flat_map filter map]; [reflexivity|].
  rewrite map_app, IH; unfold planned_for, converged at 2; cbn [fst snd].
  destruct (lookup ip live) as [l|]; [|reflexivity].
  destruct (_ && _); reflexivity.
Qed.

Lemma NoDup_keys_filter {V : Type} (f : string * V -> bool) (d : dict V) :
  NoDup (keys d) -> NoDup (keys (filter f d)).
Proof.
  unfold keys; induction d as [|x d IH]; cbn [filter map]; auto.
  intro ND; inversion ND as [|? ? N ND']; subst.
  destruct (f x); cbn [map]; auto.
  constructor; auto.
  intro H; apply N; apply in_map_iff in H as (y & E & Hy).
  apply filter_In in Hy as [Hy _]; rewrite <- E; now apply in_map.
Qed.

(** X9: the operations follow the order of the consolidated dictionary,
    one for each item that has not converged and none for the others; so
    the plan is no longer than the dictionary and, the keys being distinct,
    no address gets two operations. *)
Theorem plan_one_operation_per_address (C : dict centry) (live : dict live_entry) :
  map op_ip (plan C live) = keys (filter (fun item => negb (converged live item)) C)
  /\ (length (plan C live) <= length C)%nat
  /\ (NoDup (keys C) -> NoDup (map op_ip (plan C live))).
Proof.
  pose proof (plan_ips C live) as E; split; [exact E|]; split.
  - rewrite <- (length_map op_ip), E; unfold keys; rewrite length_map.
    apply filter_length_le.
  - intro ND; rewrite E; now apply NoDup_keys_filter.
Qed.

Lemma plan_one_operation_per_address_witness :
  NoDup (map op_ip
           (plan [("10.0.0.1", mkC (PInt 24) (PStr "vpn"));
                  ("10.0.0.2", mkC (PInt 32) sentinel);
                  ("10.0.0.3", mkC (PInt 8) (PStr "lab"))]
                 (build_existing [mkRaw "10.0.0.2" (PInt 32) sentinel (PStr "q2");
                                  mkRaw "10.0.0.1" (PInt 16) (PStr "old") (PStr "q1")]))).
Proof.
  apply (proj2 (proj2 (plan_one_operation_per_address
                         [("10.0.0.1", mkC (PInt 24) (PStr "vpn"));
                          ("10.0.0.2", mkC (PInt 32) sentinel);
                          ("10.0.0.3", mkC (PInt 8) (PStr "lab"))]
                         (build_existing
                            [mkRaw "10.0.0.2" (PInt 32) sentinel (PStr "q2");
                             mkRaw "10.0.0.1" (PInt 16) (PStr "old") (PStr "q1")])))).
  repeat constructor; cbn; intuition discriminate.
Defined.

(** ** The live dictionary *)

Lemma find_app_first {A : Type} (f : A -> bool) (l l' : list A) :
  find f (l ++ l') = match find f l with Some x => Some x | None => find f l' end.
Proof. induction l as [|x l IH]; cbn [find app]; auto. now destruct (f x). Qed.

Lemma lookup_fold_existing (ip : string) (body : list raw_acl) :
  forall d : dict live_entry,
    lookup ip (fold_left (fun existing acl => assign (raw_ip acl) (to_live acl) existing)
                         body d)
    = match find (fun a => String.eqb ip (raw_ip a)) (rev body) with
      | Some a => Some (to_live a)
      | None => lookup ip d
      end.
Proof.
  induction body as [|a body IH]; intro d; cbn [fold_left rev find]; [reflexivity|].
  rewrite IH, find_app_first, lookup_assign.
  destruct (find _ (rev body)); [reflexivity|]; cbn [find].
  now destruct (String.eqb ip (raw_ip a)).
Qed.

(** X10: when the fetched entries name an address more than once, the
    live dictionary holds the last of them, its id included; an address not
    among the entries is not in the dictionary. *)
Theorem build_existing_last_wins (body : list raw_acl) (ip : string) :
  lookup ip (build_existing body)
  = option_map to_live (find (fun a => String.eqb ip (raw_ip a)) (rev body)).
Proof.
  unfold build_existing.
  change (fun existing acl =>
            assign (raw_ip acl) (mkLive (raw_id acl) (raw_subnet acl) (raw_comment acl))
                   existing)
    with (fun existing acl => assign (raw_ip acl) (to_live acl) existing).
  rewrite lookup_fold_existing; now destruct (find _ _).
Qed.

(** ** A service planned against itself *)

Lemma merge_all_distinct (body : list raw_acl) :
  forall d : dict centry,
    NoDup (map raw_ip body) ->
    (forall a, In a body -> lookup (raw_ip a) d = None) ->
    merge_all d body = (d ++ map to_item body)%list.
Proof.
  induction body as [|a body IH]; intros d ND F.
  - cbn; now rewrite app_nil_r.
  - change (merge_all d (a :: body)) with (merge_all (merge_one d a) body).
    cbn [map] in ND; inversion ND as [|? ? N ND']; subst.
    assert (E : merge_one d a = (d ++ [to_item a])%list).
    { rewrite merge_one_assign, (F a (or_introl eq_refl)).
      apply assign_fresh, F; now left. }
    rewrite E, IH; auto.
    + cbn [map]; now rewrite <- app_assoc.
    + intros b Hb; rewrite lookup_app_l, (F b (or_intror Hb)).
      unfold to_item; cbn [lookup].
      destruct (String.eqb (raw_ip b) (raw_ip a)) eqn:Q; auto.
      apply String.eqb_eq in Q; exfalso; apply N; rewrite <- Q; now apply in_map.
Qed.

Lemma find_distinct (l : list raw_acl) (a : raw_acl) :
  NoDup (map raw_ip l) -> In a l ->
  find (fun b => String.eqb (raw_ip a) (raw_ip b)) l = Some a.
Proof.
  induction l as [|b l IH]; cbn [map In find]; [tauto|].
  intros ND H; inversion ND as [|? ? N ND']; subst.
  destruct H as [->|H]; [now rewrite String.eqb_refl|].
  destruct (String.eqb (raw_ip a) (raw_ip b)) eqn:Q; auto.
  apply String.eqb_eq in Q; exfalso; apply N; rewrite <- Q; now apply in_map.
Qed.

Lemma flat_map_nil {A B : Type} (f : A -> list B) (l : list A) :
  (forall x, In x l -> f x = []) -> flat_map f l = [].
Proof.
  induction l as [|x l IH]; intro H; cbn [flat_map]; auto.
  rewrite (H x (or_introl eq_refl)), IH; auto.
  intros y Hy; apply H; now right.
Qed.

(** X11: a service whose entries have distinct addresses and neither a
    falsy subnet nor a falsy comment is at rest: the dictionary consolidated
    from its entries alone, planned against those entries, gives the empty
    plan. *)
Theorem complete_service_plans_nothing (body : list raw_acl) :
  NoDup (map raw_ip body) ->
  (forall a, In a body ->
             truthy (raw_subnet a) = true /\ truthy (raw_comment a) = true) ->
  plan (merge_all [] body) (build_existing body) = [].
Proof.
  intros ND T.
  rewrite (merge_all_distinct body [] ND) by reflexivity; cbn [app].
  rewrite plan_flat_map; apply flat_map_nil; intros item H.
  apply in_map_iff in H as (a & <- & Ha).
  apply planned_for_converged; unfold converged, to_item; cbn [fst snd].
  unfold build_existing.
  change (fun existing acl =>
            assign (raw_ip acl) (mkLive (raw_id acl) (raw_subnet acl) (raw_comment acl))
                   existing)
    with (fun existing acl => assign (raw_ip acl) (to_live acl) existing).
  rewrite lookup_fold_existing, find_distinct.
  - destruct (T a Ha) as [Ts Tc].
    unfold merged_subnet, merged_comment, to_live; cbn [c_subnet c_comment l_subnet l_comment].
    rewrite normalize_subnet, normalize_comment, Ts, Tc; now rewrite !py_eq_refl.
  - rewrite map_rev; apply NoDup_rev, ND.
  - now apply in_rev in Ha.
Qed.

Lemma complete_service_plans_nothing_witness :
  let body := [mkRaw "10.0.0.1" (PInt 24) (PStr "vpn") (PStr "q1");
               mkRaw "10.0.0.2" (PInt 32) (PStr "None") (PStr "q2")] in
  plan (merge_all [] body) (build_existing body) = [].
Proof.
  intro body; apply (complete_service_plans_nothing body).
  - repeat constructor; cbn; intuition discriminate.
  - intros a [<-|[<-|[]]]; split; reflexivity.
Defined.

(** ** Counting and typing the requests *)

Section Phase.
Context (ok : request -> Prop).

Lemma phase_nil (n : nat) : phase ok n [].
Proof. split; [constructor | cbn; lia]. Qed.

Lemma phase_app (a b : nat) (x y : list event) :
  phase ok a x -> phase ok b y -> phase ok (a + b) (x ++ y).
Proof.
  intros [Fx Lx] [Fy Ly]; unfold phase; rewrite requests_of_app; split.
  - now apply Forall_app.
  - rewrite length_app; lia.
Qed.

Lemma phase_weaken (a b : nat) (x : list event) :
  (a <= b)%nat -> phase ok a x -> phase ok b x.
Proof. intros H [F L]; split; auto; lia. Qed.

Lemma phase_ret {A} (n : nat) (a : A) : extends (phase ok n) (ret a).
Proof. intro t; exists []; rewrite app_nil_r; split; auto using phase_nil. Qed.

Lemma phase_exit {A} (n : nat) (c : Z) : extends (phase ok n) (@sys_exit A c).
Proof. intro t; exists []; rewrite app_nil_r; split; auto using phase_nil. Qed.

Lemma phase_raise {A} (n : nat) (e : string) : extends (phase ok n) (@raise A e).
Proof. intro t; exists []; rewrite app_nil_r; split; auto using phase_nil. Qed.

Lemma phase_print (n : nat) (line : string) : extends (phase ok n) (print line).
Proof. intro t; exists [EPrint line]; split; [reflexivity | apply phase_nil]. Qed.

Lemma phase_bind {A B} (a b : nat) (m : M A) (f : A -> M B) :
  extends (phase ok a) m -> (forall x, extends (phase ok b) (f x)) ->
  extends (phase ok (a + b)) (bind m f).
Proof.
  intros Hm Hf t; unfold bind.
  destruct (Hm t) as (n1 & E1 & P1).
  destruct (m t) as [[x|c|e] t1]; cbn [snd] in E1; subst t1.
  - destruct (Hf x (t ++ n1)%list) as (n2 & E2 & P2).
    exists (n1 ++ n2)%list; split; [now rewrite E2, app_assoc | now apply phase_app].
  - exists n1; split; auto; apply (phase_weaken a); [lia | exact P1].
  - exists n1; split; auto; apply (phase_weaken a); [lia | exact P1].
Qed.

Lemma phase_check_r (n : nat) (r : response) (msg : string) :
  extends (phase ok n) (check_r r msg).
Proof.
  unfold check_r; destruct (negb _); [|apply phase_ret].
  change n with (0 + n)%nat; apply phase_bind; [apply phase_print | intros _].
  change n with (0 + n)%nat; apply phase_bind; [apply phase_print | intros _].
  apply phase_exit.
Qed.

Lemma phase_http (net : list event -> request -> response) (rq : request) :
  ok rq -> extends (phase ok 1) (http net rq).
Proof.
  intros H t; eexists; split; [reflexivity|].
  split; cbn; [repeat constructor; exact H | lia].
Qed.

Lemma phase_for_each_print_op (l : list operation) :
  extends (phase ok 0) (for_each l print_op).
Proof.
  intro t; rewrite for_each_print_op; eexists; split; [reflexivity|].
  unfold phase; rewrite requests_of_prints; split; [constructor | cbn; lia].
Qed.
End Phase.

Section Phases.
Variable net : list event -> request -> response.
Variable token : string.
Variable debug : pyval.

Lemma requests_get_phase (url : string) :
  extends (phase (is_read token) 1) (requests_get net token url).
Proof. apply phase_http; repeat split. Qed.

Lemma getSVCver_phase (svcID : string) :
  extends (phase (is_read token) 1) (getSVCver net token svcID).
Proof.
  unfold getSVCver.
  change 1%nat with (1 + (0 + 0))%nat.
  apply phase_bind; [apply requests_get_phase | intro r].
  apply phase_bind; [apply phase_check_r | intros _].
  destruct (json r); try apply phase_raise.
  destruct (find _ _); [apply phase_ret|].
  change 0%nat with (0 + 0)%nat; apply phase_bind; [apply phase_print | intros _].
  apply phase_exit.
Qed.

Lemma getACLidFromName_phase (svcID : string) (svcVER : pyval) (aclNAME : string) :
  extends (phase (is_read token) 1) (getACLidFromName net token svcID svcVER aclNAME).
Proof.
  unfold getACLidFromName.
  change 1%nat with (1 + (0 + 0))%nat.
  apply phase_bind; [apply requests_get_phase | intro r].
  apply phase_bind; [apply phase_check_r | intros _].
  destruct (json r); first [apply phase_raise | apply phase_ret].
Qed.

Lemma fetch_entries_phase (svcID : string) (svcVER : pyval) (aclNAME : string) :
  extends (phase (is_read token) 3) (fetch_entries net token svcID svcVER aclNAME).
Proof.
  unfold fetch_entries.
  change 3%nat with (1 + (1 + (1 + (0 + 0))))%nat.
  apply phase_bind.
  { destruct (negb _); [apply getSVCver_phase | apply phase_ret]. }
  intro v; apply phase_bind; [apply getACLidFromName_phase | intro id].
  apply phase_bind; [apply requests_get_phase | intro r].
  apply phase_bind; [apply phase_check_r | intros _].
  destruct (json r); first [apply phase_raise | apply phase_ret].
Qed.

Lemma apply_payload_phase (svcID : string) (svcVER aclID : pyval) (aclNAME : string)
    (payload : list operation) :
  extends (phase (is_write token) 1)
          (apply_payload net token debug svcID svcVER aclID aclNAME payload).
Proof.
  unfold apply_payload, when, requests_patch.
  change 1%nat with (0 + 1)%nat at 1; apply phase_bind.
  { destruct (truthy debug); [apply phase_print | apply phase_ret]. }
  intros _; destruct (_ =? _)%nat; [apply phase_ret|].
  change 1%nat with (0 + (1 + (0 + 0)))%nat at 1; apply phase_bind.
  { destruct (truthy debug); [|apply phase_ret].
    change 0%nat with (0 + 0)%nat at 1.
    apply phase_bind; [apply phase_print | intros _; apply phase_for_each_print_op]. }
  intros _; cbv zeta; apply phase_bind.
  { apply phase_http; repeat split; discriminate. }
  intro r; apply phase_bind; [apply phase_check_r | intros _; apply phase_print].
Qed.


(** X14: [updateACLentries] reads first and writes last: at most three
    GETs, then at most one PATCH, which carries the API key, the JSON
    content type and a body; no request follows the PATCH. *)
Theorem updateACLentries_reads_then_writes (svcID : string) (svcVER : pyval)
    (aclNAME : string) (aclENTRIES : dict centry) (t : list event) :
  exists reads writes,
    snd (updateACLentries net token debug svcID svcVER aclNAME aclENTRIES t)
    = (t ++ reads ++ writes)%list
    /\ Forall (is_read token) (requests_of reads)
    /\ (length (requests_of reads) <= 3)%nat
    /\ Forall (is_write token) (requests_of writes)
    /\ (length (requests_of writes) <= 1)%nat.
Proof.
  unfold updateACLentries, bind.
  destruct (fetch_entries_phase svcID svcVER aclNAME t) as (n1 & E1 & F1 & L1).
  destruct (fetch_entries net token svcID svcVER aclNAME t) as [[[[v id] es]|c|e] t1];
    cbn [snd] in E1; subst t1.
  - destruct (apply_payload_phase svcID v id aclNAME
                (plan aclENTRIES (build_existing es)) (t ++ n1)%list)
      as (n2 & E2 & F2 & L2).
    exists n1, n2; rewrite E2, app_assoc; auto.
  - exists n1, []; rewrite app_nil_r; repeat split; auto; cbn; auto.
  - exists n1, []; rewrite app_nil_r; repeat split; auto; cbn; auto.
Qed.
End Phases.

(** ** Choosing the version *)

Lemma find_first {A : Type} (f : A -> bool) (pre : list A) (x : A) (post : list A) :
  Forall (fun y => f y = false) pre -> f x = true -> find f (pre ++ x :: post) = Some x.
Proof.
  induction 1 as [|y pre Hy F IH]; intro Hx; cbn [app find].
  - now rewrite Hx.
  - rewrite Hy; auto.
Qed.

Lemma find_all_false {A : Type} (f : A -> bool) (l : list A) :
  existsb f l = false -> find f l = None.
Proof.
  induction l as [|y l IH]; cbn [existsb find]; auto.
  destruct (f y); [discriminate | exact IH].
Qed.

(** X12: on a 200 response that lists the versions, [getSVCver] returns
    the number of the first version marked active, after that one request
    and without printing; when no version is active (the empty list
    included) it prints one line and exits with code 1. *)
Theorem getSVCver_first_active
    (net : list event -> request -> response) (token svcID : string)
    (t : list event) (vs : list version) :
  let rq := version_request token svcID in
  let rs := net t rq in
  status_code rs = 200 ->
  json rs = BVersions vs ->
  (existsb (fun v => truthy (v_active v)) vs = false ->
   getSVCver net token svcID t
   = (Exit 1,
      (t ++ [ERequest rq rs;
             EPrint ("Couldn't find active service version number for service "
                       ++ svcID ++ ". Exiting...")])%list))
  /\ (forall pre v post,
         vs = (pre ++ v :: post)%list ->
         Forall (fun w => truthy (v_active w) = false) pre ->
         truthy (v_active v) = true ->
         getSVCver net token svcID t = (Ret (v_number v), (t ++ [ERequest rq rs])%list)).
Proof.
  intros rq rs S J.
  assert (E : getSVCver net token svcID t
              = match find (fun v => truthy (v_active v)) vs with
                | Some v => (Ret (v_number v), (t ++ [ERequest rq rs])%list)
                | None =>
                    (Exit 1,
                     (t ++ [ERequest rq rs;
                            EPrint ("Couldn't find active service version number for service "
                                      ++ svcID ++ ". Exiting...")])%list)
                end).
  { unfold getSVCver, requests_get; rewrite checked_request; cbv zeta.
    change (mkReq GET _ (FASTLY_API_HEADERS token) None) with rq.
    fold rs; rewrite S, J; cbn [Z.eqb Pos.eqb].
    destruct (find _ vs); [reflexivity|].
    unfold bind, print, sys_exit; now rewrite <- app_assoc. }
  split.
  - intro N; now rewrite E, (find_all_false _ _ N).
  - intros pre v post -> F A; now rewrite E, (find_first _ _ _ _ F A).
Qed.

Lemma getSVCver_first_active_witness :
  getSVCver demo_net "key" "A" [] =
  (Ret (PInt 2),
   [ERequest (version_request "key" "A") (demo_net [] (version_request "key" "A"))]).
Proof.
  refine (proj2 (getSVCver_first_active demo_net "key" "A" []
                   [mkVersion (PBool false) (PInt 1); mkVersion (PBool true) (PInt 2)]
                   eq_refl eq_refl)
                [mkVersion (PBool false) (PInt 1)] (mkVersion (PBool true) (PInt 2)) []
                eq_refl _ eq_refl).
  repeat constructor.
Defined.

(** ** Start-up *)

(** X15: without FASTLY_API_TOKEN in the environment the script prints
    one line and exits with code 1 before anything else; the check is for
    the presence of the variable only, so with any value, the empty string
    included, the run goes on to the entry point (and exits with code 0).
    Either way no request is sent. *)
Theorem script_needs_the_token (environ : dict string) (args : arguments)
    (t : list event) :
  (lookup "FASTLY_API_TOKEN" environ = None ->
   script environ args t
   = (Exit 1,
      (t ++ [EPrint "Missing FASTLY_API_TOKEN environment variable. Exiting..."])%list))
  /\ (forall tok, lookup "FASTLY_API_TOKEN" environ = Some tok ->
                  script environ args t = main args t
                  /\ fst (script environ args t) = Exit 0)
  /\ requests_of (snd (script environ args t)) = requests_of t.
Proof.
  assert (Hm : exists new, main args t = (Exit 0, (t ++ new)%list) /\ requests_of new = []).
  { unfold main; cbv zeta; unfold bind; rewrite !for_each_print.
    unfold print, sys_exit; rewrite <- !app_assoc.
    eexists; split; [reflexivity|].
    now rewrite !requests_of_app, !requests_of_map_print. }
  destruct Hm as (new & Em & Rm).
  assert (E : script environ args t
              = match lookup "FASTLY_API_TOKEN" environ with
                | Some _ => main args t
                | None =>
                    (Exit 1,
                     (t ++ [EPrint "Missing FASTLY_API_TOKEN environment variable. Exiting..."])%list)
                end).
  { unfold script, startup; destruct (lookup "FASTLY_API_TOKEN" environ); reflexivity. }
  rewrite E; destruct (lookup "FASTLY_API_TOKEN" environ) as [tok|].
  - split; [discriminate|]; split.
    + intros tok' _; rewrite Em; auto.
    + rewrite Em; cbn [snd]; now rewrite requests_of_app, Rm, app_nil_r.
  - split; [reflexivity | split; [discriminate|]].
    cbn [snd]; rewrite requests_of_app; cbn; apply app_nil_r.
Qed.

Lemma script_needs_the_token_witness :
  script [("HOME", "/root")] (mkArgs ["SVC1"] "office" (PBool false)) []
  = (Exit 1, [EPrint "Missing FASTLY_API_TOKEN environment variable. Exiting..."])
  /\ fst (script [("FASTLY_API_TOKEN", "")] (mkArgs ["SVC1"] "office" (PBool false)) [])
     = Exit 0.
Proof.
  split.
  - apply (proj1 (script_needs_the_token [("HOME", "/root")]
                    (mkArgs ["SVC1"] "office" (PBool false)) [])); reflexivity.
  - apply (proj1 (proj2 (script_needs_the_token [("FASTLY_API_TOKEN", "")]
                           (mkArgs ["SVC1"] "office" (PBool false)) [])) "").
    reflexivity.
Defined.

(** ** The first request *)




Section FirstRequest.
Variable net : list event -> request -> response.
Variable token : string.
Variable debug : pyval.






End FirstRequest.
